(** * Incremental document ingestion ([src/procesar_docs2.py])

    A shallow embedding of the batch job that keeps the FAISS index of the
    PDF corpus up to date: the change record ([processed_files.json]), the
    change detection by modification time, the loading and chunking of the
    new files, the index update and the staged replacement of the published
    index directory.

    Conventions of the model.
    - The file system is a record [FS] with one field per path constant of
      the script ([DIR_DOCS], [DIR_DB_FAISS], [DIR_DB_TEMP],
      [ARCHIVO_REGISTRO]).
    - Modification times are the floats returned by [os.path.getmtime]; the
      script only compares them with [<], so they are taken as integers
      (a totally ordered type suffices).
    - The external collaborators (PDF loader, embedding model, FAISS store,
      [os.rename], the JSON writer) may raise.  Whether they do is fixed by
      the file system (for the PDF loader: a property of the file) and by an
      [Entorno] record (for the others).  [shutil.rmtree] does not raise on
      an existing directory, but it removes a directory entry by entry: the
      partly removed directory is an observable point of its own.  The
      existence tests succeed.
    - Every statement that changes the file system appends an observation
      (the event and the file system after it) to a trace, and so does every
      call to the embedding backend; the observable points of a run are the
      file systems of its trace. *)

From Stdlib Require Import ZArith Lia Ascii.
From stdpp Require Import base option list strings gmap.

Open Scope Z_scope.
Open Scope nat_scope.

(** ** Text splitter *)

Module Splitter.
Section Ventana.
Context {char : Type}.
Variables (chunk_size chunk_overlap : nat).

(** Modelled from the spec: the class [RecursiveCharacterTextSplitter] that
    [dividir_texto] and [procesar_lote_documentos] instantiate belongs to
    the langchain library and is not part of the sources.  Following
    section 4.1, a window of [chunk_size] characters slides over the page
    text, consecutive windows repeating [chunk_overlap] characters; a text
    that fits in one window is one chunk and the empty text gives no
    chunk.  [fuel] bounds the number of windows. *)
Fixpoint deslizar (fuel : nat) (text : list char) : list (list char) :=
  match fuel with
  | O => []
  | S fuel' =>
      match text with
      | [] => []
      | _ :: _ =>
          if length text <=? chunk_size then [text]
          else take chunk_size text
                 :: deslizar fuel' (drop (chunk_size - chunk_overlap) text)
      end
  end.

(** Modelled from the spec: [split_text] of the same class, the sliding
    window of section 4.1 run over the whole text. *)
Definition split_text (text : list char) : list (list char) :=
  deslizar (length text) text.

(** Concatenation of the chunks, each chunk but the last without the
    [chunk_overlap] characters that the next one repeats. *)
Fixpoint reconstruir (chunks : list (list char)) : list char :=
  match chunks with
  | [] => []
  | c :: resto =>
      match resto with
      | [] => c
      | _ :: _ => take (length c - chunk_overlap) c ++ reconstruir resto
      end
  end.
End Ventana.
End Splitter.

(** ** Documents and the chunking of a batch *)

(** A langchain [Document]: the text and the metadata the PDF loader sets. *)
Record Document := {
  page_content : list ascii;
  source : string;
  page : nat
}.

(** Modelled from the spec: [split_documents] of the langchain splitter,
    absent from the sources.  Every document (a page) is split on its own
    and each chunk keeps the source path and page number of its document,
    so that no window spans two pages (section 4.1). *)
Definition split_documents (chunk_size chunk_overlap : nat)
    (documentos : list Document) : list Document :=
  flat_map
    (fun d =>
       map (fun c => {| page_content := c; source := source d; page := page d |})
           (Splitter.split_text chunk_size chunk_overlap (page_content d)))
    documentos.

(** [dividir_texto] of [procesar_docs.py]. *)
Definition dividir_texto (documentos : list Document) : list Document :=
  split_documents 1000 200 documentos.

(** ** File system and environment *)

(** A PDF of the documents directory.  [paginas] is what [PyPDFLoader]
    extracts, [None] when the loader raises on this file. *)
Record PdfFile := {
  nombre_archivo : string;
  ultima_modificacion : Z;
  paginas : option (list (list ascii))
}.

(** Contents of an index directory: a complete index, or an incomplete one
    (what an interrupted [save_local] left behind, or what is left of an
    index while [shutil.rmtree] is removing it). *)
Inductive IndexDir :=
  | Completo (docs : list Document)
  | Parcial (docs : list Document).

(** Contents of [processed_files.json]. *)
Inductive RegistroJson :=
  | Legible (registro : gmap string Z)
  | Ilegible.

Record FS := {
  DIR_DOCS : option (list PdfFile);
  DIR_DB_FAISS : option IndexDir;
  DIR_DB_TEMP : option IndexDir;
  ARCHIVO_REGISTRO : option RegistroJson
}.

(** The directory while [shutil.rmtree] is half way through it. *)
Definition medio_borrado (d : IndexDir) : IndexDir :=
  match d with
  | Completo docs => Parcial docs
  | Parcial docs => Parcial docs
  end.

Definition con_faiss (d : option IndexDir) (f : FS) : FS :=
  {| DIR_DOCS := DIR_DOCS f; DIR_DB_FAISS := d;
     DIR_DB_TEMP := DIR_DB_TEMP f; ARCHIVO_REGISTRO := ARCHIVO_REGISTRO f |}.

Definition con_temp (d : option IndexDir) (f : FS) : FS :=
  {| DIR_DOCS := DIR_DOCS f; DIR_DB_FAISS := DIR_DB_FAISS f;
     DIR_DB_TEMP := d; ARCHIVO_REGISTRO := ARCHIVO_REGISTRO f |}.

Definition con_registro (r : option RegistroJson) (f : FS) : FS :=
  {| DIR_DOCS := DIR_DOCS f; DIR_DB_FAISS := DIR_DB_FAISS f;
     DIR_DB_TEMP := DIR_DB_TEMP f; ARCHIVO_REGISTRO := r |}.

(** How a call of [save_local] ends. *)
Inductive ResSave :=
  | guarda_todo
  | falla_sin_rastro
  | falla_parcial (k : nat).

(** How [guardar_registro_archivos] ends: the record is written; or
    [open(..., 'w')] raises and the file is untouched; or [json.dump] raises
    after [open] has truncated the file, which is left with no valid
    JSON. *)
Inductive ResGuardar :=
  | registro_escrito
  | falla_al_abrir
  | falla_al_escribir.

(** Behaviour of the collaborators during one run. *)
Record Entorno := {
  embeddings_ok : bool;   (* HuggingFaceEmbeddings(model_name=...) *)
  load_local_ok : bool;   (* FAISS.load_local *)
  embed_ok : bool;        (* add_documents / from_documents *)
  save_local_res : ResSave;
  rename_ok : bool;       (* os.rename *)
  guardar_res : ResGuardar
}.

(** The record is saved without an exception. *)
Definition guardar_ok (env : Entorno) : bool :=
  match guardar_res env with
  | registro_escrito => true
  | _ => false
  end.

Inductive Excepcion :=
  | JSONDecodeError
  | ModelLoadError
  | IndexLoadError
  | EmbeddingError
  | SaveLocalError
  | RenameError
  | RegistroWriteError
  | IndexError
  | FileNotFoundError.

Inductive Resultado (A : Type) :=
  | Ret (a : A)
  | Raise (e : Excepcion).
Arguments Ret {A} a.
Arguments Raise {A} e.

Inductive Evento :=
  | ev_rmtree_temp
  | ev_embed (chunks : list Document)
  | ev_save_local
  | ev_rmtree_faiss
  | ev_rename
  | ev_guardar_registro.

Record Estado := {
  fs : FS;
  traza : list (Evento * FS)
}.

Definition inicial (f : FS) : Estado := {| fs := f; traza := [] |}.

(** Records an effect and the file system it leaves. *)
Definition observar (ev : Evento) (f : FS) (st : Estado) : Estado :=
  {| fs := f; traza := traza st ++ [(ev, f)] |}.

(** ** State and exception monad *)

Definition M (A : Type) : Type := Estado → Resultado A * Estado.

Definition ret {A} (a : A) : M A := fun st => (Ret a, st).

Definition bind {A B} (m : M A) (k : A → M B) : M B :=
  fun st =>
    match m st with
    | (Ret a, st') => k a st'
    | (Raise e, st') => (Raise e, st')
    end.

Declare Scope m_scope.
Delimit Scope m_scope with M.
Notation "x <- m ;; k" := (bind m (fun x => k))
  (at level 100, m at next level, right associativity) : m_scope.
Notation "m ;; k" := (bind m (fun _ => k))
  (at level 100, right associativity) : m_scope.

Definition exists_faiss : M bool :=
  fun st => (Ret (bool_decide (is_Some (DIR_DB_FAISS (fs st)))), st).

Definition exists_temp : M bool :=
  fun st => (Ret (bool_decide (is_Some (DIR_DB_TEMP (fs st)))), st).

(** [shutil.rmtree(DIR_DB_TEMP)]: the directory is seen partly removed,
    then gone; on a missing directory the call raises. *)
Definition borrar_temp (d : IndexDir) (st : Estado) : Estado :=
  observar ev_rmtree_temp (con_temp None (fs st))
    (observar ev_rmtree_temp (con_temp (Some (medio_borrado d)) (fs st)) st).

Definition rmtree_temp : M unit :=
  fun st =>
    match DIR_DB_TEMP (fs st) with
    | Some d => (Ret tt, borrar_temp d st)
    | None => (Raise FileNotFoundError, st)
    end.

(** [shutil.rmtree(DIR_DB_FAISS)]. *)
Definition borrar_faiss (d : IndexDir) (st : Estado) : Estado :=
  observar ev_rmtree_faiss (con_faiss None (fs st))
    (observar ev_rmtree_faiss (con_faiss (Some (medio_borrado d)) (fs st)) st).

Definition rmtree_faiss : M unit :=
  fun st =>
    match DIR_DB_FAISS (fs st) with
    | Some d => (Ret tt, borrar_faiss d st)
    | None => (Raise FileNotFoundError, st)
    end.

Definition HuggingFaceEmbeddings (env : Entorno) : M unit :=
  fun st => if embeddings_ok env then (Ret tt, st) else (Raise ModelLoadError, st).

(** [FAISS.load_local(str(DIR_DB_FAISS), ...)]: reads the published
    directory, which has to hold a complete index. *)
Definition load_local (env : Entorno) : M (list Document) :=
  fun st =>
    match DIR_DB_FAISS (fs st) with
    | Some (Completo docs) =>
        if load_local_ok env then (Ret docs, st) else (Raise IndexLoadError, st)
    | _ => (Raise IndexLoadError, st)
    end.

(** [db.add_documents(chunks)]: embeds the chunks and appends them. *)
Definition add_documents (env : Entorno) (db chunks : list Document)
    : M (list Document) :=
  fun st =>
    let st' := observar (ev_embed chunks) (fs st) st in
    if embed_ok env then (Ret (db ++ chunks), st') else (Raise EmbeddingError, st').

(** [FAISS.from_documents(chunks, embeddings)]: the texts are embedded and
    the index is sized after the first vector, so an empty list raises
    [IndexError] once the backend has been called. *)
Definition from_documents (env : Entorno) (chunks : list Document)
    : M (list Document) :=
  fun st =>
    let st' := observar (ev_embed chunks) (fs st) st in
    if embed_ok env then
      match chunks with
      | [] => (Raise IndexError, st')
      | _ :: _ => (Ret chunks, st')
      end
    else (Raise EmbeddingError, st').

(** [db.save_local(str(DIR_DB_TEMP))]. *)
Definition save_local (env : Entorno) (db : list Document) : M unit :=
  fun st =>
    match save_local_res env with
    | guarda_todo =>
        (Ret tt, observar ev_save_local (con_temp (Some (Completo db)) (fs st)) st)
    | falla_sin_rastro => (Raise SaveLocalError, st)
    | falla_parcial k =>
        (Raise SaveLocalError,
         observar ev_save_local (con_temp (Some (Parcial (take k db))) (fs st)) st)
    end.

(** [os.rename(DIR_DB_TEMP, DIR_DB_FAISS)]. *)
Definition os_rename (env : Entorno) : M unit :=
  fun st =>
    match DIR_DB_TEMP (fs st), DIR_DB_FAISS (fs st), rename_ok env with
    | Some d, None, true =>
        (Ret tt, observar ev_rename (con_temp None (con_faiss (Some d) (fs st))) st)
    | _, _, _ => (Raise RenameError, st)
    end.

(** ** The functions of [procesar_docs2.py] *)

(** [cargar_registro_archivos]: the empty record when the file is absent,
    otherwise whatever [json.load] gives, which raises on a file that is not
    valid JSON. *)
Definition cargar_registro_archivos (f : FS) : Resultado (gmap string Z) :=
  match ARCHIVO_REGISTRO f with
  | None => Ret ∅
  | Some (Legible registro) => Ret registro
  | Some Ilegible => Raise JSONDecodeError
  end.

(** [guardar_registro_archivos]: [open(ARCHIVO_REGISTRO, 'w')] truncates
    the file before [json.dump] writes it. *)
Definition guardar_registro_archivos (env : Entorno)
    (registro : gmap string Z) : M unit :=
  fun st =>
    match guardar_res env with
    | registro_escrito =>
        (Ret tt,
         observar ev_guardar_registro
           (con_registro (Some (Legible registro)) (fs st)) st)
    | falla_al_abrir => (Raise RegistroWriteError, st)
    | falla_al_escribir =>
        (Raise RegistroWriteError,
         observar ev_guardar_registro (con_registro (Some Ilegible) (fs st)) st)
    end.

(** The test of the loop of [obtener_archivos_a_procesar]:
    [nombre_archivo not in registro or registro[nombre_archivo] < ultima_modificacion]. *)
Definition es_nuevo (registro : gmap string Z) (archivo_pdf : PdfFile) : bool :=
  match registro !! nombre_archivo archivo_pdf with
  | None => true
  | Some t => (t <? ultima_modificacion archivo_pdf)%Z
  end.

(** The loop over [DIR_DOCS.glob("*.pdf")]; [registro] is the dictionary
    the caller passed, updated in place. *)
Fixpoint obtener_bucle (pdfs : list PdfFile) (registro : gmap string Z)
    (archivos_nuevos : list string) : list string * gmap string Z :=
  match pdfs with
  | [] => (archivos_nuevos, registro)
  | archivo_pdf :: resto =>
      if es_nuevo registro archivo_pdf then
        obtener_bucle resto
          (<[nombre_archivo archivo_pdf := ultima_modificacion archivo_pdf]> registro)
          (archivos_nuevos ++ [nombre_archivo archivo_pdf])
      else obtener_bucle resto registro archivos_nuevos
  end.

(** What [DIR_DOCS.glob("*.pdf")] yields; nothing when the directory is
    missing. *)
Definition archivos_pdf (f : FS) : list PdfFile :=
  match DIR_DOCS f with
  | Some pdfs => pdfs
  | None => []
  end.

Definition obtener_archivos_a_procesar (f : FS) (registro : gmap string Z)
    : list string * gmap string Z :=
  match DIR_DOCS f with
  | None => ([], registro)
  | Some pdfs => obtener_bucle pdfs registro []
  end.

(** [PyPDFLoader(ruta).load()]: one document per page, tagged with the path
    and the page number; [None] when the loader raises. *)
Definition PyPDFLoader_load (f : FS) (ruta : string) : option (list Document) :=
  pdfs ← DIR_DOCS f;
  archivo ← List.find (fun a => bool_decide (nombre_archivo a = ruta)) pdfs;
  pags ← paginas archivo;
  Some (imap (fun i texto => {| page_content := texto; source := ruta; page := i |}) pags).

(** The loading loop of [procesar_lote_documentos]: a file whose loading
    raises is skipped. *)
Fixpoint cargar_lote (f : FS) (rutas_archivos : list string) : list Document :=
  match rutas_archivos with
  | [] => []
  | ruta :: resto =>
      match PyPDFLoader_load f ruta with
      | Some docs => docs ++ cargar_lote f resto
      | None => cargar_lote f resto
      end
  end.

Definition procesar_lote_documentos (f : FS) (rutas_archivos : list string)
    : list Document :=
  match cargar_lote f rutas_archivos with
  | [] => []
  | documentos => split_documents 1000 200 documentos
  end.

(** How a run of [main] ends. *)
Inductive Salida :=
  | SinCambios                      (* "No hay documentos nuevos o modificados" *)
  | SinChunks                       (* "No hay chunks para procesar" *)
  | Completado                      (* "¡Proceso completado!" *)
  | Abortado (e : Excepcion)        (* the [except] branch *)
  | NoCapturada (e : Excepcion).    (* raised outside the [try] *)

Definition es_vacia {A} (l : list A) : bool :=
  match l with [] => true | _ :: _ => false end.

Open Scope m_scope.

(** Steps 3 to 5 of [main]. *)
Definition publicar (env : Entorno) (db_final : list Document)
    (registro_archivos : gmap string Z) : M Salida :=
  save_local env db_final ;;
  existe <- exists_faiss ;;
  (if existe then rmtree_faiss else ret tt) ;;
  os_rename env ;;
  guardar_registro_archivos env registro_archivos ;;
  ret Completado.

(** The body of the [try] of [main]. *)
Definition cuerpo_try (env : Entorno) (archivos_a_procesar : list string)
    (registro_archivos : gmap string Z) : M Salida :=
  fun st =>
    let chunks_nuevos := procesar_lote_documentos (fs st) archivos_a_procesar in
    (HuggingFaceEmbeddings env ;;
     existe_temp <- exists_temp ;;
     (if existe_temp then rmtree_temp else ret tt) ;;
     existe <- exists_faiss ;;
     if existe && negb (es_vacia chunks_nuevos) then
       db_existente <- load_local env ;;
       db_final <- add_documents env db_existente chunks_nuevos ;;
       publicar env db_final registro_archivos
     else if negb (es_vacia chunks_nuevos) then
       db_final <- from_documents env chunks_nuevos ;;
       publicar env db_final registro_archivos
     else ret SinChunks) st.

(** The [except] branch: the temporary directory is removed if present. *)
Definition limpiar_temp (st : Estado) : Estado :=
  match DIR_DB_TEMP (fs st) with
  | Some d => borrar_temp d st
  | None => st
  end.

Definition main (env : Entorno) (f : FS) : Salida * Estado :=
  match cargar_registro_archivos f with
  | Raise e => (NoCapturada e, inicial f)
  | Ret registro_archivos =>
      let '(archivos_a_procesar, registro_archivos) :=
        obtener_archivos_a_procesar f registro_archivos in
      if es_vacia archivos_a_procesar && bool_decide (is_Some (DIR_DB_FAISS f))
      then (SinCambios, inicial f)
      else
        match cuerpo_try env archivos_a_procesar registro_archivos (inicial f) with
        | (Ret salida, st) => (salida, st)
        | (Raise e, st) => (Abortado e, limpiar_temp st)
        end
  end.

Close Scope m_scope.

(** ** Observations on a trace *)

(** Number of calls to the embedding backend. *)
Definition es_embed (ev : Evento) : bool :=
  match ev with ev_embed _ => true | _ => false end.

Definition llamadas_embedding (tr : list (Evento * FS)) : nat :=
  length (List.filter (fun o => es_embed o.1) tr).

(** File systems observed before the rename of step 4 has taken place. *)
Fixpoint antes_del_rename (tr : list (Evento * FS)) : list FS :=
  match tr with
  | [] => []
  | (ev_rename, _) :: _ => []
  | (_, f) :: resto => f :: antes_del_rename resto
  end.

(** File systems observed before step 4 starts. *)
Fixpoint antes_del_paso4 (tr : list (Evento * FS)) : list FS :=
  match tr with
  | [] => []
  | (ev_rmtree_faiss, _) :: _ => []
  | (ev_rename, _) :: _ => []
  | (_, f) :: resto => f :: antes_del_paso4 resto
  end.

(** Contents of the temporary directory found by each [save_local] of a
    trace that starts in [f0]. *)
Fixpoint temp_al_guardar (f0 : FS) (tr : list (Evento * FS))
    : list (option IndexDir) :=
  match tr with
  | [] => []
  | (ev_save_local, f) :: resto => DIR_DB_TEMP f0 :: temp_al_guardar f resto
  | (_, f) :: resto => temp_al_guardar f resto
  end.

(** Sources of the chunks of an index directory. *)
Definition docs_de (d : option IndexDir) : list Document :=
  match d with
  | Some (Completo docs) => docs
  | Some (Parcial docs) => docs
  | None => []
  end.

(** ** The paths of a run

    The file systems and the trace that a run of [main] goes through, and
    the ways it can end.  [main_corrida] below shows that every run of
    [main] follows one of these paths. *)

Definition sin_temp (f : FS) : FS := con_temp None f.

(** The index that step 2 builds from the published one and the new chunks. *)
Definition db_final_de (f : FS) (chunks_nuevos : list Document) : list Document :=
  match DIR_DB_FAISS f with
  | Some (Completo docs) => docs ++ chunks_nuevos
  | _ => chunks_nuevos
  end.

(** File system after [save_local], after the removal of the published
    directory, after the rename and after the record is saved. *)
Definition f_guardado (f : FS) (chunks : list Document) : FS :=
  con_temp (Some (Completo (db_final_de f chunks))) f.

Definition f_sin_faiss (f : FS) (chunks : list Document) : FS :=
  con_faiss None (f_guardado f chunks).

Definition f_publicado (f : FS) (chunks : list Document) : FS :=
  con_temp None (con_faiss (Some (Completo (db_final_de f chunks))) f).

Definition f_registrado (f : FS) (chunks : list Document)
    (registro : gmap string Z) : FS :=
  con_registro (Some (Legible registro)) (f_publicado f chunks).

Definition traza_limpieza (f : FS) : list (Evento * FS) :=
  match DIR_DB_TEMP f with
  | Some d =>
      [(ev_rmtree_temp, con_temp (Some (medio_borrado d)) f);
       (ev_rmtree_temp, sin_temp f)]
  | None => []
  end.

Definition traza_embed (f : FS) (chunks : list Document) : list (Evento * FS) :=
  traza_limpieza f ++ [(ev_embed chunks, sin_temp f)].

Definition traza_guardado (f : FS) (chunks : list Document) : list (Evento * FS) :=
  traza_embed f chunks ++ [(ev_save_local, f_guardado f chunks)].

Definition traza_paso4 (f : FS) (chunks : list Document) : list (Evento * FS) :=
  traza_guardado f chunks ++
  match DIR_DB_FAISS f with
  | Some d =>
      [(ev_rmtree_faiss, con_faiss (Some (medio_borrado d)) (f_guardado f chunks));
       (ev_rmtree_faiss, f_sin_faiss f chunks)]
  | None => []
  end.

Definition traza_rename (f : FS) (chunks : list Document) : list (Evento * FS) :=
  traza_paso4 f chunks ++ [(ev_rename, f_publicado f chunks)].

(** [FAISS.load_local] is not called or succeeds. *)
Definition carga_ok (env : Entorno) (f : FS) : Prop :=
  match DIR_DB_FAISS f with
  | Some (Completo _) => load_local_ok env = true
  | Some (Parcial _) => False
  | None => True
  end.

(** The run gets as far as computing the embeddings of the new chunks. *)
Definition llega_a_embed (env : Entorno) (f : FS) (chunks : list Document) : Prop :=
  embeddings_ok env = true ∧ chunks ≠ [] ∧ carga_ok env f.

(** The run gets as far as step 4. *)
Definition llega_a_paso4 (env : Entorno) (f : FS) (chunks : list Document) : Prop :=
  llega_a_embed env f chunks ∧ embed_ok env = true
  ∧ save_local_res env = guarda_todo.

(** Ways in which the [try] of [main] ends, with the state it leaves (for
    the exceptions: after the [except] branch). *)
Inductive Intento (env : Entorno) (f : FS) (registro : gmap string Z)
    (chunks : list Document) : Salida → Estado → Prop :=
  | intento_modelo :
      embeddings_ok env = false →
      Intento env f registro chunks (Abortado ModelLoadError)
        {| fs := sin_temp f; traza := traza_limpieza f |}
  | intento_sin_chunks :
      embeddings_ok env = true → chunks = [] →
      Intento env f registro chunks SinChunks
        {| fs := sin_temp f; traza := traza_limpieza f |}
  | intento_carga :
      embeddings_ok env = true → chunks ≠ [] → ¬ carga_ok env f →
      Intento env f registro chunks (Abortado IndexLoadError)
        {| fs := sin_temp f; traza := traza_limpieza f |}
  | intento_embed :
      llega_a_embed env f chunks → embed_ok env = false →
      Intento env f registro chunks (Abortado EmbeddingError)
        {| fs := sin_temp f; traza := traza_embed f chunks |}
  | intento_save_sin_rastro :
      llega_a_embed env f chunks → embed_ok env = true →
      save_local_res env = falla_sin_rastro →
      Intento env f registro chunks (Abortado SaveLocalError)
        {| fs := sin_temp f; traza := traza_embed f chunks |}
  | intento_save_parcial k :
      llega_a_embed env f chunks → embed_ok env = true →
      save_local_res env = falla_parcial k →
      Intento env f registro chunks (Abortado SaveLocalError)
        {| fs := sin_temp f;
           traza := traza_embed f chunks ++
             [(ev_save_local,
               con_temp (Some (Parcial (take k (db_final_de f chunks)))) f);
              (ev_rmtree_temp,
               con_temp (Some (Parcial (take k (db_final_de f chunks)))) f);
              (ev_rmtree_temp, sin_temp f)] |}
  | intento_rename :
      llega_a_paso4 env f chunks → rename_ok env = false →
      Intento env f registro chunks (Abortado RenameError)
        {| fs := sin_temp (con_faiss None f);
           traza := traza_paso4 f chunks ++
             [(ev_rmtree_temp,
               con_temp (Some (Parcial (db_final_de f chunks)))
                 (con_faiss None f));
              (ev_rmtree_temp, sin_temp (con_faiss None f))] |}
  | intento_guardar :
      llega_a_paso4 env f chunks → rename_ok env = true →
      guardar_res env = falla_al_abrir →
      Intento env f registro chunks (Abortado RegistroWriteError)
        {| fs := f_publicado f chunks; traza := traza_rename f chunks |}
  | intento_guardar_truncado :
      llega_a_paso4 env f chunks → rename_ok env = true →
      guardar_res env = falla_al_escribir →
      Intento env f registro chunks (Abortado RegistroWriteError)
        {| fs := con_registro (Some Ilegible) (f_publicado f chunks);
           traza := traza_rename f chunks ++
             [(ev_guardar_registro,
               con_registro (Some Ilegible) (f_publicado f chunks))] |}
  | intento_completado :
      llega_a_paso4 env f chunks → rename_ok env = true →
      guardar_res env = registro_escrito →
      Intento env f registro chunks Completado
        {| fs := f_registrado f chunks registro;
           traza := traza_rename f chunks ++
             [(ev_guardar_registro, f_registrado f chunks registro)] |}.

(** Ways in which [main] ends. *)
Inductive Corrida (env : Entorno) (f : FS) : Salida → Estado → Prop :=
  | corrida_ilegible :
      ARCHIVO_REGISTRO f = Some Ilegible →
      Corrida env f (NoCapturada JSONDecodeError) (inicial f)
  | corrida_sin_cambios registro0 registro :
      cargar_registro_archivos f = Ret registro0 →
      obtener_archivos_a_procesar f registro0 = ([], registro) →
      is_Some (DIR_DB_FAISS f) →
      Corrida env f SinCambios (inicial f)
  | corrida_intento registro0 archivos registro salida st :
      cargar_registro_archivos f = Ret registro0 →
      obtener_archivos_a_procesar f registro0 = (archivos, registro) →
      archivos ≠ [] ∨ DIR_DB_FAISS f = None →
      Intento env f registro (procesar_lote_documentos f archivos) salida st →
      Corrida env f salida st.

(** ** The change test in the words of section 4.2 *)

(** The path is absent from the record, or the current modification time
    exceeds the recorded one. *)
Definition debe_ingerirse (registro : gmap string Z) (a : PdfFile) : Prop :=
  registro !! nombre_archivo a = None
  ∨ ∃ t, registro !! nombre_archivo a = Some t ∧ (t < ultima_modificacion a)%Z.

(** A run that published or found nothing to do. *)
Definition exitosa (s : Salida) : bool :=
  match s with
  | Completado | SinCambios => true
  | _ => false
  end.

(** ** Concrete inputs *)

Definition texto (s : string) : list ascii := String.list_ascii_of_string s.

Definition todo_ok : Entorno :=
  {| embeddings_ok := true; load_local_ok := true; embed_ok := true;
     save_local_res := guarda_todo; rename_ok := true;
     guardar_res := registro_escrito |}.

Definition a_pdf : PdfFile :=
  {| nombre_archivo := "documentos/a.pdf"; ultima_modificacion := 10;
     paginas := Some [texto "primera pagina"; texto "segunda pagina"] |}.

(** A file on which the PDF loader raises. *)
Definition b_pdf : PdfFile :=
  {| nombre_archivo := "documentos/b.pdf"; ultima_modificacion := 20;
     paginas := None |}.

Definition c_pdf : PdfFile :=
  {| nombre_archivo := "documentos/c.pdf"; ultima_modificacion := 30;
     paginas := Some [texto "otro documento"] |}.

Definition pagina_larga : Document :=
  {| page_content := replicate 2500 "x"%char;
     source := "documentos/a.pdf"; page := 0 |}.

Definition pagina_corta : Document :=
  {| page_content := texto "hola"; source := "documentos/a.pdf"; page := 0 |}.

Definition entorno_save_parcial : Entorno :=
  {| embeddings_ok := true; load_local_ok := true; embed_ok := true;
     save_local_res := falla_parcial 1; rename_ok := true;
     guardar_res := registro_escrito |}.

Definition chunks_de_a : list Document :=
  [ {| page_content := texto "primera pagina";
       source := "documentos/a.pdf"; page := 0 |};
    {| page_content := texto "segunda pagina";
       source := "documentos/a.pdf"; page := 1 |} ].

(** [a.pdf] is indexed and recorded; [c.pdf] is new. *)
Definition fs_nuevo_c : FS :=
  {| DIR_DOCS := Some [a_pdf; c_pdf];
     DIR_DB_FAISS := Some (Completo chunks_de_a);
     DIR_DB_TEMP := None;
     ARCHIVO_REGISTRO := Some (Legible {["documentos/a.pdf" := 10%Z]}) |}.

Definition entorno_rename_falla : Entorno :=
  {| embeddings_ok := true; load_local_ok := true; embed_ok := true;
     save_local_res := guarda_todo; rename_ok := false;
     guardar_res := registro_escrito |}.

(** No index and no record yet; the loader raises on [b.pdf]. *)
Definition fs_con_pdf_ilegible : FS :=
  {| DIR_DOCS := Some [a_pdf; b_pdf]; DIR_DB_FAISS := None;
     DIR_DB_TEMP := None; ARCHIVO_REGISTRO := None |}.

(** [a.pdf] is indexed and recorded but no longer in the directory;
    [c.pdf] is new. *)
Definition fs_a_borrado : FS :=
  {| DIR_DOCS := Some [c_pdf];
     DIR_DB_FAISS := Some (Completo chunks_de_a);
     DIR_DB_TEMP := None;
     ARCHIVO_REGISTRO := Some (Legible {["documentos/a.pdf" := 10%Z]}) |}.

(** A directory with [a.pdf] only and a given record file. *)
Definition fs_registro (r : option RegistroJson) : FS :=
  {| DIR_DOCS := Some [a_pdf]; DIR_DB_FAISS := None; DIR_DB_TEMP := None;
     ARCHIVO_REGISTRO := r |}.

(** Two files, no index, no record file. *)
Definition fs_dos_archivos : FS :=
  {| DIR_DOCS := Some [a_pdf; c_pdf]; DIR_DB_FAISS := None;
     DIR_DB_TEMP := None; ARCHIVO_REGISTRO := None |}.

(** A scanned PDF whose only page has no text. *)
Definition vacio_pdf : PdfFile :=
  {| nombre_archivo := "documentos/vacio.pdf"; ultima_modificacion := 40;
     paginas := Some [[]] |}.

Definition fs_pagina_vacia : FS :=
  {| DIR_DOCS := Some [vacio_pdf]; DIR_DB_FAISS := None;
     DIR_DB_TEMP := None; ARCHIVO_REGISTRO := None |}.

(** ** The full rebuild of [procesar_docs.py]

    The first script rebuilds the index from every PDF of the documents
    directory and writes it straight into the published directory.  Its
    directory listing ([os.listdir] filtered by [endswith('.pdf')]) is taken
    to be the list of [DIR_DOCS], as for the glob of the second script. *)

Module ProcesarDocs.

(** [PyPDFLoader(ruta_completa).load()] on an entry of the directory. *)
Definition cargar_pdf (a : PdfFile) : option (list Document) :=
  pags ← paginas a;
  Some (imap (fun i texto =>
                {| page_content := texto; source := nombre_archivo a; page := i |})
             pags).

(** [cargar_documentos]: the loader is not guarded, so the first file on
    which it raises ends the loop; [inl] carries the path of that file. *)
Fixpoint cargar_documentos (directorio_docs : list PdfFile)
    : string + list Document :=
  match directorio_docs with
  | [] => inr []
  | archivo :: resto =>
      match cargar_pdf archivo with
      | None => inl (nombre_archivo archivo)
      | Some paginas_doc =>
          match cargar_documentos resto with
          | inl ruta => inl ruta
          | inr documentos => inr (paginas_doc ++ documentos)
          end
      end
  end.

Open Scope m_scope.

(** [crear_base_vectorial]. *)
Definition crear_base_vectorial (env : Entorno) (chunks : list Document)
    : M (list Document) :=
  HuggingFaceEmbeddings env ;;
  from_documents env chunks.

(** [db.save_local(str(ruta_db_local))]: the index is written into the
    published directory itself. *)
Definition save_local_publicado (env : Entorno) (db : list Document) : M unit :=
  fun st =>
    match save_local_res env with
    | guarda_todo =>
        (Ret tt, observar ev_save_local (con_faiss (Some (Completo db)) (fs st)) st)
    | falla_sin_rastro => (Raise SaveLocalError, st)
    | falla_parcial k =>
        (Raise SaveLocalError,
         observar ev_save_local (con_faiss (Some (Parcial (take k db))) (fs st)) st)
    end.

(** How a run of the first script ends; it has no [try], so an exception
    ends the run where it is raised. *)
Inductive Salida :=
  | SinPdfs                         (* directory missing or without PDFs *)
  | SinContenido                    (* "No se pudo cargar ningún contenido" *)
  | Completado                      (* "¡Proceso completado!" *)
  | FallaPdf (ruta : string)        (* the PDF loader raised on [ruta] *)
  | Falla (e : Excepcion).

Definition main (env : Entorno) (f : FS) : Salida * Estado :=
  match DIR_DOCS f with
  | None => (SinPdfs, inicial f)
  | Some [] => (SinPdfs, inicial f)
  | Some dir_docs =>
      match cargar_documentos dir_docs with
      | inl ruta => (FallaPdf ruta, inicial f)
      | inr docs =>
          if es_vacia docs then (SinContenido, inicial f)
          else
            let chunks := dividir_texto docs in
            match (db <- crear_base_vectorial env chunks ;;
                   save_local_publicado env db) (inicial f) with
            | (Ret _, st) => (Completado, st)
            | (Raise e, st) => (Falla e, st)
            end
      end
  end.

Close Scope m_scope.

End ProcesarDocs.

(** ** The readers of the published index ([app.py], [app2.py], [test.py],
    [test_mistral.py]) *)

Module App.

Open Scope m_scope.


Close Scope m_scope.

(** [sep.join(textos)]. *)
Fixpoint join (sep : list ascii) (textos : list (list ascii)) : list ascii :=
  match textos with
  | [] => []
  | t :: resto =>
      match resto with
      | [] => t
      | _ :: _ => t ++ sep ++ join sep resto
      end
  end.

(** The separator ["\n\n"]. *)
Definition doble_salto : list ascii := ["010"%char; "010"%char].

(** [format_docs]. *)
Definition format_docs (docs : list Document) : list ascii :=
  join doble_salto (page_content <$> docs).

End App.

(** ** [utils.py] *)

Module Utils.

(** What the call [requests.get("http://localhost:11434/api/tags", timeout=5)]
    does: it returns a response with a status code, or it raises (as does a
    failing [import requests]). *)
Inductive RespuestaHttp :=
  | http_status (codigo : nat)
  | http_excepcion.

(** What the API-key check finds in [streamlit]. *)
Inductive EstadoSecrets :=
  | st_lanza                        (* the import or the access to the secrets raises *)
  | st_sin_secrets                  (* [hasattr(st, 'secrets')] is false *)
  | st_secrets (claves : gset string).

Record EntornoConfig := {
  ruta_db_existe : bool;            (* ruta_db.exists() *)
  index_faiss_existe : bool;        (* (ruta_db / "index.faiss").exists() *)
  respuesta_tags : RespuestaHttp;
  secrets : EstadoSecrets
}.

(** The dictionary [config]. *)
Record Config := {
  base_datos_existe : bool;
  ollama_disponible : bool;
  api_keys_configuradas : bool;
  errores : list string
}.

Definition msg_base_datos : string :=
  "Base de datos no encontrada. Ejecuta: python procesar_docs.py".
Definition msg_ollama : string :=
  "Ollama no está ejecutándose. Inicia con: ollama serve".
Definition msg_api_keys : string :=
  "API keys no configuradas en .streamlit/secrets.toml".
Definition msg_no_verificar : string :=
  "No se pudo verificar API keys".

(** [verificar_configuracion]; the bare [except:] clauses catch everything. *)
Definition verificar_configuracion (e : EntornoConfig) : Config :=
  let base_datos := ruta_db_existe e && index_faiss_existe e in
  let errores0 := if base_datos then [] else [msg_base_datos] in
  let '(ollama, errores1) :=
    match respuesta_tags e with
    | http_status codigo => (bool_decide (codigo = 200), errores0)
    | http_excepcion => (false, errores0 ++ [msg_ollama])
    end in
  let '(api_keys, errores2) :=
    match secrets e with
    | st_lanza => (false, errores1 ++ [msg_no_verificar])
    | st_sin_secrets => (false, errores1)
    | st_secrets claves =>
        if bool_decide ("GOOGLE_API_KEY" ∈ claves ∨ "GROQ_API_KEY" ∈ claves)
        then (true, errores1)
        else (false, errores1 ++ [msg_api_keys])
    end in
  {| base_datos_existe := base_datos; ollama_disponible := ollama;
     api_keys_configuradas := api_keys; errores := errores2 |}.

(** *** [validar_pregunta]

    A Python string is the list of its code points.  [str.lower] and the
    whitespace test behind [str.strip] belong to the interpreter and are
    parameters. *)

(** Code points of an ASCII literal. *)
Definition codigos (s : string) : list N :=
  N_of_ascii <$> String.list_ascii_of_string s.

(** [palabra in texto] on strings, tried at every position. *)
Fixpoint es_prefijo (palabra texto : list N) : bool :=
  match palabra, texto with
  | [], _ => true
  | _ :: _, [] => false
  | a :: palabra', b :: texto' => (a =? b)%N && es_prefijo palabra' texto'
  end.

Fixpoint contiene (palabra texto : list N) : bool :=
  es_prefijo palabra texto
  || match texto with
     | [] => false
     | _ :: texto' => contiene palabra texto'
     end.

(** The list [palabras_clave]; é is 233, á is 225, ó is 243. *)
Definition palabras_clave : list (list N) :=
  [ [113; 117; 233]%N;                          (* qué *)
    [99; 117; 225; 108]%N;                      (* cuál *)
    [99; 243; 109; 111]%N;                      (* cómo *)
    [100; 243; 110; 100; 101]%N;                (* dónde *)
    [99; 117; 225; 110; 100; 111]%N;            (* cuándo *)
    [112; 111; 114; 32; 113; 117; 233]%N;       (* por qué *)
    [113; 117; 105; 233; 110]%N;                (* quién *)
    codigos "explain"; codigos "describe"; codigos "what"; codigos "how";
    codigos "where"; codigos "when"; codigos "why"; codigos "who" ].

Definition msg_corta : string :=
  "La pregunta debe tener al menos 3 caracteres".
Definition msg_larga : string :=
  "La pregunta es demasiado larga (máximo 500 caracteres)".
Definition msg_sin_clave : string :=
  "La pregunta debe ser una pregunta real (usar qué, cómo, cuál, etc.)".
Definition msg_valida : string := "Pregunta válida".

Section Validar.
Variable lower : list N → list N.
Variable isspace : N → bool.

Fixpoint lstrip (s : list N) : list N :=
  match s with
  | [] => []
  | c :: s' => if isspace c then lstrip s' else s
  end.

(** [s.strip()]. *)
Definition strip (s : list N) : list N :=
  reverse (lstrip (reverse (lstrip s))).

Definition validar_pregunta (pregunta : list N) : bool * string :=
  if es_vacia pregunta || (length (strip pregunta) <? 3) then (false, msg_corta)
  else if 500 <? length pregunta then (false, msg_larga)
  else
    let pregunta_lower := lower pregunta in
    let tiene_palabra_clave :=
      existsb (fun palabra => contiene palabra pregunta_lower) palabras_clave in
    if negb tiene_palabra_clave then (false, msg_sin_clave)
    else (true, msg_valida).
End Validar.

End Utils.

(** ** What a run of [main] works on *)

(** The record that line 85 loads (empty when the load raises), the files
    that line 86 returns, the record it leaves in memory and the chunks that
    line 95 makes of those files. *)
Definition registro_cargado (f : FS) : gmap string Z :=
  match cargar_registro_archivos f with
  | Ret registro => registro
  | Raise _ => ∅
  end.

Definition archivos_de_corrida (f : FS) : list string :=
  (obtener_archivos_a_procesar f (registro_cargado f)).1.

Definition registro_de_corrida (f : FS) : gmap string Z :=
  (obtener_archivos_a_procesar f (registro_cargado f)).2.

Definition chunks_de_corrida (f : FS) : list Document :=
  procesar_lote_documentos f (archivos_de_corrida f).

(** Event classes, and the check that in a trace every event of the class
    [despues] comes after some event of the class [antes]. *)
Definition es_save_local (ev : Evento) : bool :=
  match ev with ev_save_local => true | _ => false end.
Definition es_rmtree_faiss (ev : Evento) : bool :=
  match ev with ev_rmtree_faiss => true | _ => false end.
Definition es_rename (ev : Evento) : bool :=
  match ev with ev_rename => true | _ => false end.
Definition es_guardar_registro (ev : Evento) : bool :=
  match ev with ev_guardar_registro => true | _ => false end.

(** The observation of a [save_local] that wrote the whole index into the
    temporary directory. *)
Definition es_guardado_completo (o : Evento * FS) : bool :=
  es_save_local o.1
  && match DIR_DB_TEMP o.2 with
     | Some (Completo _) => true
     | _ => false
     end.

Fixpoint solo_despues_de (antes despues : Evento * FS → bool) (visto : bool)
    (tr : list (Evento * FS)) : bool :=
  match tr with
  | [] => true
  | o :: resto =>
      (negb (despues o) || visto)
      && solo_despues_de antes despues (visto || antes o) resto
  end.

(** ** More concrete inputs *)

(** The identity for [str.lower] and the space character as only
    whitespace: enough for questions in lower-case ASCII. *)
Definition lower_trivial (s : list N) : list N := s.
Definition isspace_ascii (c : N) : bool := (c =? 32)%N.

Definition pregunta_ejemplo : list N := Utils.codigos "what is the inaoe".

Definition entorno_guardar_falla : Entorno :=
  {| embeddings_ok := true; load_local_ok := true; embed_ok := true;
     save_local_res := guarda_todo; rename_ok := true;
     guardar_res := falla_al_abrir |}.

(** The record is being written when the save fails. *)
Definition entorno_guardar_trunca : Entorno :=
  {| embeddings_ok := true; load_local_ok := true; embed_ok := true;
     save_local_res := guarda_todo; rename_ok := true;
     guardar_res := falla_al_escribir |}.

Definition config_todo_ok : Utils.EntornoConfig :=
  {| Utils.ruta_db_existe := true; Utils.index_faiss_existe := true;
     Utils.respuesta_tags := Utils.http_status 200;
     Utils.secrets := Utils.st_secrets {["GOOGLE_API_KEY"]} |}.

(** ** Splitter: auxiliary facts *)

Section SplitterFacts.
Context {char : Type}.
Variables (chunk_size chunk_overlap : nat).
Hypothesis overlap_lt_size : chunk_overlap < chunk_size.

Abbreviation paso := (chunk_size - chunk_overlap).
Abbreviation deslizar := (Splitter.deslizar (char:=char) chunk_size chunk_overlap).
Abbreviation reconstruir := (Splitter.reconstruir (char:=char) chunk_overlap).

Lemma deslizar_corto fuel (text : list char) :
  text ≠ [] → length text ≤ chunk_size → length text ≤ fuel →
  deslizar fuel text = [text].
Proof.
  intros Hne Hlen Hfuel.
  destruct fuel as [|fuel]; [destruct text; simpl in *; [done | lia] |].
  destruct text as [|a text]; [done |].
  cbn [Splitter.deslizar].
  destruct (Nat.leb_spec (length (a :: text)) chunk_size); [done | lia].
Qed.

Lemma deslizar_largo fuel (text : list char) :
  chunk_size < length text → length text ≤ S fuel →
  deslizar (S fuel) text
  = take chunk_size text :: deslizar fuel (drop paso text).
Proof.
  intros Hlen Hfuel.
  destruct text as [|a text]; [simpl in Hlen; lia |].
  cbn [Splitter.deslizar].
  destruct (Nat.leb_spec (length (a :: text)) chunk_size); [lia | done].
Qed.

Lemma deslizar_no_vacio fuel (text : list char) :
  text ≠ [] → length text ≤ fuel → deslizar fuel text ≠ [].
Proof.
  intros Hne Hfuel.
  destruct (Nat.le_gt_cases (length text) chunk_size) as [Hle | Hgt].
  - by rewrite deslizar_corto.
  - destruct fuel as [|fuel]; [lia |]. by rewrite deslizar_largo.
Qed.

(** The [i]-th chunk is the window that starts at offset [i * paso]. *)
Lemma deslizar_lookup fuel : ∀ (text : list char) i c,
  length text ≤ fuel →
  deslizar fuel text !! i = Some c →
  c = take chunk_size (drop (i * paso) text)
  ∧ i * paso < length text
  ∧ (i ≠ 0 → chunk_overlap < length c).
Proof.
  induction fuel as [|fuel IH]; intros text i c Hfuel Hc; [done |].
  destruct (Nat.le_gt_cases (length text) chunk_size) as [Hle | Hgt].
  - destruct text as [|a text]; [done |].
    rewrite deslizar_corto in Hc by done.
    destruct i as [|i]; [|done]. simpl in Hc. simplify_eq.
    rewrite Nat.mul_0_l, drop_0, take_ge by done.
    split_and!; [done | simpl; lia | done].
  - rewrite deslizar_largo in Hc by done.
    destruct i as [|i]; simpl in Hc.
    + simplify_eq. rewrite Nat.mul_0_l, drop_0. split_and!; [done | lia | done].
    + apply IH in Hc as (-> & Hi & Hov); [| rewrite length_drop; lia].
      rewrite length_drop in Hi.
      split_and!; [| lia |].
      * by rewrite drop_drop.
      * intros _. destruct i as [|i]; [| by apply Hov].
        rewrite length_take, !length_drop. lia.
Qed.

(** A chunk that has a successor is a full window. *)
Lemma deslizar_lleno fuel : ∀ (text : list char) i c c',
  length text ≤ fuel →
  deslizar fuel text !! i = Some c →
  deslizar fuel text !! S i = Some c' →
  chunk_size + i * paso < length text.
Proof.
  induction fuel as [|fuel IH]; intros text i c c' Hfuel Hc Hc'; [done |].
  destruct (Nat.le_gt_cases (length text) chunk_size) as [Hle | Hgt].
  - destruct text as [|a text]; [done |].
    by rewrite deslizar_corto in Hc' by done.
  - rewrite deslizar_largo in Hc, Hc' by done.
    destruct i as [|i]; [lia |]. simpl in Hc, Hc'.
    eapply IH in Hc'; [| rewrite length_drop; lia | done].
    rewrite length_drop in Hc'. lia.
Qed.

Lemma reconstruir_deslizar fuel : ∀ text : list char,
  length text ≤ fuel → reconstruir (deslizar fuel text) = text.
Proof.
  induction fuel as [|fuel IH]; intros text Hfuel.
  { destruct text; [done | simpl in Hfuel; lia]. }
  destruct (Nat.le_gt_cases (length text) chunk_size) as [Hle | Hgt].
  - destruct text as [|a text]; [done |]. by rewrite deslizar_corto.
  - rewrite deslizar_largo by done.
    assert (Hne : drop paso text ≠ []).
    { intros Heq. apply (f_equal length) in Heq.
      rewrite length_drop in Heq. simpl in Heq. lia. }
    assert (Hfuel' : length (drop paso text) ≤ fuel)
      by (rewrite length_drop; lia).
    pose proof (deslizar_no_vacio fuel _ Hne Hfuel') as Hcs.
    cbn [Splitter.reconstruir].
    destruct (deslizar fuel (drop paso text)) as [|c cs] eqn:Hd; [done |].
    rewrite <- Hd, IH by done.
    rewrite length_take_le, take_take by lia.
    rewrite Nat.min_l by lia. apply take_drop.
Qed.

Abbreviation split_text := (Splitter.split_text (char:=char) chunk_size chunk_overlap).

Lemma split_text_corto (text : list char) :
  text ≠ [] → length text ≤ chunk_size → split_text text = [text].
Proof. intros. by apply deslizar_corto. Qed.

Lemma split_text_al_menos_dos (text : list char) :
  chunk_size < length text → 2 ≤ length (split_text text).
Proof.
  intros Hlen. unfold Splitter.split_text.
  destruct (length text) as [|n] eqn:Hn; [lia |].
  rewrite deslizar_largo by lia.
  pose proof (deslizar_no_vacio n (drop paso text)) as Hne.
  destruct (deslizar n (drop paso text)); simpl; [| lia].
  exfalso. apply Hne; [| rewrite length_drop; lia | done].
  intros Heq. apply (f_equal length) in Heq.
  rewrite length_drop in Heq. simpl in Heq. lia.
Qed.

Lemma split_text_consecutivos (text : list char) i c c' :
  split_text text !! i = Some c →
  split_text text !! S i = Some c' →
  c = take chunk_size (drop (i * paso) text)
  ∧ c' = take chunk_size (drop (S i * paso) text)
  ∧ length c = chunk_size
  ∧ chunk_overlap < length c'
  ∧ drop paso c = take chunk_overlap c'.
Proof.
  intros Hc Hc'. unfold Splitter.split_text in *.
  pose proof (deslizar_lleno _ _ _ _ _ (Nat.le_refl _) Hc Hc') as Hlleno.
  apply deslizar_lookup in Hc as (-> & _ & _); [| done].
  apply deslizar_lookup in Hc' as (-> & _ & Hov); [| done].
  split_and!; [done | done | | by apply Hov |].
  - rewrite length_take, length_drop. lia.
  - rewrite take_take, Nat.min_l by lia.
    replace (S i * paso) with (i * paso + paso) by lia.
    rewrite <- drop_drop.
    rewrite (take_drop_commute (drop (i * paso) text) chunk_overlap paso).
    by replace (paso + chunk_overlap) with chunk_size by lia.
Qed.

Lemma reconstruir_split_text (text : list char) :
  reconstruir (split_text text) = text.
Proof. by apply reconstruir_deslizar. Qed.
End SplitterFacts.

Lemma dividir_texto_una_pagina (d : Document) :
  page_content <$> dividir_texto [d]
  = Splitter.split_text 1000 200 (page_content d).
Proof.
  unfold dividir_texto, split_documents. cbn [flat_map].
  rewrite app_nil_r, <- list_fmap_compose.
  induction (Splitter.split_text 1000 200 (page_content d)) as [|c cs IH];
    [done |].
  cbn [fmap list_fmap]. by f_equal.
Qed.

(** The chunking of [procesar_lote_documentos] is that of [dividir_texto]. *)
Lemma procesar_lote_documentos_dividir f rutas :
  procesar_lote_documentos f rutas = dividir_texto (cargar_lote f rutas).
Proof.
  unfold procesar_lote_documentos, dividir_texto.
  by destruct (cargar_lote f rutas).
Qed.

(** ** Every run follows one of the paths *)

Ltac desplegar_main :=
  cbv [main cuerpo_try publicar bind ret exists_faiss exists_temp rmtree_temp
       rmtree_faiss HuggingFaceEmbeddings load_local add_documents
       from_documents save_local os_rename guardar_registro_archivos
       limpiar_temp borrar_temp borrar_faiss observar inicial con_temp
       con_faiss con_registro];
  cbn [fs traza DIR_DOCS DIR_DB_FAISS DIR_DB_TEMP ARCHIVO_REGISTRO].

Lemma intento_cuerpo_try env f registro archivos :
  let r := cuerpo_try env archivos registro (inicial f) in
  Intento env f registro (procesar_lote_documentos f archivos)
    match r.1 with Ret s => s | Raise e => Abortado e end
    match r.1 with Ret _ => r.2 | Raise _ => limpiar_temp r.2 end.
Proof.
  cbv zeta. desplegar_main.
  set (chunks := procesar_lote_documentos f archivos).
  destruct f as [docs pub tmp reg], env as [e1 e2 e3 e4 e5 e6].
  cbn [fs traza DIR_DOCS DIR_DB_FAISS DIR_DB_TEMP ARCHIVO_REGISTRO
       embeddings_ok load_local_ok embed_ok save_local_res rename_ok guardar_res].
  destruct e1; [| destruct tmp as [[?|?]|]; by apply intento_modelo].
  destruct (es_vacia chunks) eqn:Hv.
  { destruct chunks; [| done].
    destruct tmp as [[?|?]|], pub; by apply intento_sin_chunks. }
  assert (Hne : chunks ≠ []) by (by destruct chunks).
  clearbody chunks. destruct chunks as [|c chunks]; [done |].
  destruct tmp as [[?|?]|], pub as [[?|?]|], e2, e3, e4 as [| |k], e5, e6;
    cbn;
    first
      [ by apply intento_carga; [| | cbv [carga_ok]; cbn; auto]
      | by apply intento_embed; [split_and! |]
      | by apply intento_save_sin_rastro; [split_and! | |]
      | by apply intento_save_parcial with (k := k); [split_and! | |]
      | by apply intento_rename; [split_and! |]
      | by apply intento_guardar; [split_and! | |]
      | by apply intento_guardar_truncado; [split_and! | |]
      | by apply intento_completado; [split_and! | |] ].
Qed.

Lemma main_corrida env f : Corrida env f (main env f).1 (main env f).2.
Proof.
  unfold main.
  destruct (cargar_registro_archivos f) as [registro0 | e] eqn:Hcarga; cycle 1.
  { unfold cargar_registro_archivos in Hcarga.
    destruct (ARCHIVO_REGISTRO f) as [[?|]|] eqn:Hreg; simplify_eq.
    by apply corrida_ilegible. }
  destruct (obtener_archivos_a_procesar f registro0)
    as [archivos registro] eqn:Hobt.
  destruct (es_vacia archivos && bool_decide (is_Some (DIR_DB_FAISS f)))
    eqn:Hsalta.
  - apply andb_true_iff in Hsalta as [Hv Hex].
    destruct archivos; [| done]. apply bool_decide_eq_true in Hex.
    by eapply corrida_sin_cambios.
  - pose proof (intento_cuerpo_try env f registro archivos) as Hint.
    cbv zeta in Hint.
    eapply corrida_intento; [done | done | |].
    + apply andb_false_iff in Hsalta as [Hv | Hex].
      * left. by destruct archivos.
      * right. apply bool_decide_eq_false in Hex.
        destruct (DIR_DB_FAISS f); [| done]. by destruct Hex.
    + by destruct (cuerpo_try env archivos registro (inicial f)) as [[s | e] st].
Qed.

(** ** Change detection *)

Lemma es_nuevo_debe_ingerirse registro a :
  es_nuevo registro a = true ↔ debe_ingerirse registro a.
Proof.
  unfold es_nuevo, debe_ingerirse.
  destruct (registro !! nombre_archivo a) as [t|].
  - rewrite Z.ltb_lt. split; [eauto | intros [? | (? & ? & ?)]]; by simplify_eq.
  - split; [by left | done].
Qed.

Lemma obtener_bucle_acumula pdfs : ∀ registro acc,
  obtener_bucle pdfs registro acc
  = (acc ++ (obtener_bucle pdfs registro []).1,
     (obtener_bucle pdfs registro []).2).
Proof.
  induction pdfs as [|a pdfs IH]; intros registro acc; cbn [obtener_bucle].
  - by rewrite app_nil_r.
  - destruct (es_nuevo registro a); [| apply IH].
    rewrite (IH _ (acc ++ _)), (IH _ ([] ++ _)). cbn [fst snd].
    by rewrite <- app_assoc.
Qed.

(** A name that the loop does not visit keeps its entry. *)
Lemma obtener_bucle_ajeno pdfs : ∀ registro acc p,
  p ∉ nombre_archivo <$> pdfs →
  (obtener_bucle pdfs registro acc).2 !! p = registro !! p.
Proof.
  induction pdfs as [|a pdfs IH]; intros registro acc p Hp; [done |].
  rewrite fmap_cons, not_elem_of_cons in Hp. destruct Hp as [Hne Hp].
  cbn [obtener_bucle]. destruct (es_nuevo registro a); [| by apply IH].
  rewrite IH by done. by rewrite lookup_insert_ne.
Qed.

Lemma es_nuevo_insert_ne registro a b t :
  nombre_archivo a ≠ nombre_archivo b →
  es_nuevo (<[nombre_archivo a := t]> registro) b = es_nuevo registro b.
Proof. intros Hne. unfold es_nuevo. by rewrite lookup_insert_ne. Qed.

(** With pairwise distinct names, the test made on the updated dictionary
    agrees with the test on the dictionary the caller passed. *)
Lemma obtener_bucle_filtra pdfs : ∀ registro,
  NoDup (nombre_archivo <$> pdfs) →
  (obtener_bucle pdfs registro []).1
  = nombre_archivo <$> List.filter (es_nuevo registro) pdfs.
Proof.
  induction pdfs as [|a pdfs IH]; intros registro Hnd; [done |].
  rewrite fmap_cons, NoDup_cons in Hnd. destruct Hnd as [Ha Hnd].
  cbn [obtener_bucle List.filter]. destruct (es_nuevo registro a) eqn:Hnuevo.
  - rewrite obtener_bucle_acumula. cbn [fst app fmap list_fmap]. f_equal.
    rewrite IH by done. f_equal. apply List.filter_ext_in.
    intros b Hb. apply es_nuevo_insert_ne. intros Heq. apply Ha.
    rewrite Heq. apply list_elem_of_fmap. exists b. split; [done |].
    by apply list_elem_of_In.
  - by apply IH.
Qed.

Lemma obtener_bucle_actualiza pdfs : ∀ registro acc a,
  NoDup (nombre_archivo <$> pdfs) →
  a ∈ pdfs → es_nuevo registro a = true →
  (obtener_bucle pdfs registro acc).2 !! nombre_archivo a
  = Some (ultima_modificacion a).
Proof.
  induction pdfs as [|b pdfs IH]; intros registro acc a Hnd Ha Hnuevo.
  { by apply elem_of_nil in Ha. }
  rewrite fmap_cons, NoDup_cons in Hnd. destruct Hnd as [Hb Hnd].
  apply elem_of_cons in Ha as [-> | Ha]; cbn [obtener_bucle].
  - rewrite Hnuevo, obtener_bucle_ajeno by done. apply lookup_insert_eq.
  - assert (Hne : nombre_archivo b ≠ nombre_archivo a).
    { intros Heq. apply Hb. rewrite Heq. apply list_elem_of_fmap. eauto. }
    destruct (es_nuevo registro b); [| by apply IH].
    apply IH; [done | done |]. by rewrite es_nuevo_insert_ne.
Qed.

(** Names that are not returned keep their entry (or their absence). *)
Lemma obtener_bucle_conserva pdfs : ∀ registro acc p,
  p ∉ (obtener_bucle pdfs registro acc).1 →
  (obtener_bucle pdfs registro acc).2 !! p = registro !! p.
Proof.
  induction pdfs as [|a pdfs IH]; intros registro acc p Hp; [done |].
  cbn [obtener_bucle] in *. destruct (es_nuevo registro a); [| by apply IH].
  rewrite IH by done. apply lookup_insert_ne. intros <-. apply Hp.
  rewrite obtener_bucle_acumula. cbn [fst].
  rewrite !elem_of_app, list_elem_of_singleton. auto.
Qed.

(** The loop never deletes a key. *)
Lemma obtener_bucle_claves pdfs : ∀ registro acc p,
  is_Some (registro !! p) → is_Some ((obtener_bucle pdfs registro acc).2 !! p).
Proof.
  induction pdfs as [|a pdfs IH]; intros registro acc p Hp; [done |].
  cbn [obtener_bucle]. destruct (es_nuevo registro a); [| by apply IH].
  apply IH. destruct (decide (nombre_archivo a = p)) as [<- | Hne].
  - rewrite lookup_insert_eq. eauto.
  - by rewrite lookup_insert_ne.
Qed.

(** A file that is up to date stays so while the loop runs. *)
Lemma obtener_bucle_al_dia pdfs : ∀ registro acc a,
  es_nuevo registro a = false →
  es_nuevo (obtener_bucle pdfs registro acc).2 a = false.
Proof.
  induction pdfs as [|b pdfs IH]; intros registro acc a Ha; [done |].
  cbn [obtener_bucle]. destruct (es_nuevo registro b) eqn:Hb; [| by apply IH].
  apply IH. unfold es_nuevo in *.
  destruct (decide (nombre_archivo b = nombre_archivo a)) as [Heq | Hne].
  - rewrite Heq in *. rewrite lookup_insert_eq.
    destruct (registro !! nombre_archivo a) as [t|]; [| done].
    apply Z.ltb_lt in Hb. apply Z.ltb_ge in Ha. apply Z.ltb_ge. lia.
  - by rewrite lookup_insert_ne.
Qed.

Lemma obtener_bucle_todos_al_dia pdfs : ∀ registro acc a,
  a ∈ pdfs → es_nuevo (obtener_bucle pdfs registro acc).2 a = false.
Proof.
  induction pdfs as [|b pdfs IH]; intros registro acc a Ha.
  { by apply elem_of_nil in Ha. }
  apply elem_of_cons in Ha as [-> | Ha]; cbn [obtener_bucle].
  - destruct (es_nuevo registro b) eqn:Hb.
    + apply obtener_bucle_al_dia. unfold es_nuevo.
      rewrite lookup_insert_eq. apply Z.ltb_irrefl.
    + by apply obtener_bucle_al_dia.
  - destruct (es_nuevo registro b); by apply IH.
Qed.

Lemma obtener_bucle_nada_nuevo pdfs : ∀ registro acc,
  (∀ a, a ∈ pdfs → es_nuevo registro a = false) →
  obtener_bucle pdfs registro acc = (acc, registro).
Proof.
  induction pdfs as [|a pdfs IH]; intros registro acc Hall; [done |].
  cbn [obtener_bucle]. rewrite Hall by apply list_elem_of_here.
  apply IH. intros b Hb. apply Hall. by apply list_elem_of_further.
Qed.

(** ** The claims about the splitter *)

(** C8: for a page text longer than [chunk_size] (1000), the chunker gives at
    least two chunks; each chunk that has a successor is the full window of
    1000 characters starting at a multiple of 800, its last 200 characters
    are the first 200 of its successor (which is longer than 200
    characters, so the overlap is exactly 200); and joining the chunks, each
    but the last without its last 200 characters, gives the page text
    back. *)
Theorem C8_solape_y_reconstruccion (d : Document) :
  1000 < length (page_content d) →
  let chunks := page_content <$> dividir_texto [d] in
  2 ≤ length chunks
  ∧ (∀ i c c', chunks !! i = Some c → chunks !! S i = Some c' →
       c = take 1000 (drop (i * 800) (page_content d))
       ∧ c' = take 1000 (drop (S i * 800) (page_content d))
       ∧ length c = 1000
       ∧ 200 < length c'
       ∧ drop 800 c = take 200 c')
  ∧ Splitter.reconstruir 200 chunks = page_content d.
Proof.
  intros Hlen chunks. subst chunks. rewrite dividir_texto_una_pagina.
  assert (Hov : 200 < 1000) by lia.
  split_and!.
  - by apply split_text_al_menos_dos.
  - intros i c c' Hc Hc'.
    pose proof (split_text_consecutivos 1000 200 Hov _ _ _ _ Hc Hc') as H.
    by change (1000 - 200) with 800 in H.
  - by apply reconstruir_split_text.
Qed.

Lemma C8_witness :
  1000 < length (page_content pagina_larga)
  ∧ Splitter.reconstruir 200 (page_content <$> dividir_texto [pagina_larga])
    = page_content pagina_larga.
Proof.
  assert (H : 1000 < length (page_content pagina_larga)).
  { apply Nat.ltb_lt. vm_compute. reflexivity. }
  split; [exact H |].
  exact (proj2 (proj2 (C8_solape_y_reconstruccion pagina_larga H))).
Defined.

(** C9: a page text shorter than [chunk_size] (1000) gives exactly one
    chunk, the page itself, when it is not empty, and no chunk when it is
    empty. *)
Theorem C9_pagina_corta_y_vacia (d : Document) :
  length (page_content d) < 1000 →
  (page_content d ≠ [] → dividir_texto [d] = [d])
  ∧ (page_content d = [] → dividir_texto [d] = []).
Proof.
  intros Hlen. unfold dividir_texto, split_documents. cbn [flat_map].
  rewrite app_nil_r. split.
  - intros Hne. rewrite split_text_corto by (done || lia). by destruct d.
  - by intros ->.
Qed.

Lemma C9_witness :
  length (page_content pagina_corta) < 1000
  ∧ dividir_texto [pagina_corta] = [pagina_corta].
Proof.
  assert (H : length (page_content pagina_corta) < 1000).
  { apply Nat.ltb_lt. vm_compute. reflexivity. }
  split; [exact H |].
  apply (proj1 (C9_pagina_corta_y_vacia pagina_corta H)). discriminate.
Defined.

(** ** The claims about the change record *)

(** C4 (amended): [cargar_registro_archivos] returns the persisted record
    when the file is readable and the empty record when there is no file;
    when the file exists but is unreadable it raises, and since the call is
    outside the [try] of [main] the run ends with that exception, before
    anything is done. *)
Theorem C4_cargar_registro (f : FS) :
  (∀ registro, ARCHIVO_REGISTRO f = Some (Legible registro) →
     cargar_registro_archivos f = Ret registro)
  ∧ (ARCHIVO_REGISTRO f = None → cargar_registro_archivos f = Ret ∅)
  ∧ (ARCHIVO_REGISTRO f = Some Ilegible →
     cargar_registro_archivos f = Raise JSONDecodeError
     ∧ ∀ env, main env f = (NoCapturada JSONDecodeError, inicial f)).
Proof.
  unfold main, cargar_registro_archivos.
  split_and!; [intros registro Hr | intros Hr | intros Hr]; by rewrite Hr.
Qed.

Lemma C4_witness :
  cargar_registro_archivos
    (fs_registro (Some (Legible {["documentos/a.pdf" := 10%Z]})))
  = Ret {["documentos/a.pdf" := 10%Z]}
  ∧ cargar_registro_archivos (fs_registro None) = Ret ∅
  ∧ cargar_registro_archivos (fs_registro (Some Ilegible))
    = Raise JSONDecodeError.
Proof.
  split_and!.
  - exact (proj1 (C4_cargar_registro
                    (fs_registro (Some (Legible {["documentos/a.pdf" := 10%Z]}))))
             _ eq_refl).
  - exact (proj1 (proj2 (C4_cargar_registro (fs_registro None))) eq_refl).
  - exact (proj1 (proj2 (proj2
             (C4_cargar_registro (fs_registro (Some Ilegible)))) eq_refl)).
Defined.

(** C4 as stated fails: on an unreadable file the load does not return the
    empty record, and the run dies with the exception. *)
Lemma C4_contraejemplo :
  cargar_registro_archivos (fs_registro (Some Ilegible)) ≠ Ret ∅
  ∧ (main todo_ok (fs_registro (Some Ilegible))).1 = NoCapturada JSONDecodeError.
Proof. split; [discriminate | reflexivity]. Qed.

(** C5: when the names of the scanned files are pairwise distinct (they are
    the entries of one directory), [obtener_archivos_a_procesar] returns, in
    scan order, exactly the files whose name is absent from the record or
    whose modification time exceeds the recorded one; the record it leaves
    holds the current modification time for each returned file and is
    unchanged for every other name. *)
Theorem C5_archivos_a_procesar (f : FS) (registro : gmap string Z) :
  NoDup (nombre_archivo <$> archivos_pdf f) →
  let r := obtener_archivos_a_procesar f registro in
  r.1 = nombre_archivo <$> List.filter (es_nuevo registro) (archivos_pdf f)
  ∧ (∀ p, p ∈ r.1 ↔
       ∃ a, a ∈ archivos_pdf f ∧ nombre_archivo a = p
            ∧ debe_ingerirse registro a)
  ∧ (∀ a, a ∈ archivos_pdf f → debe_ingerirse registro a →
       r.2 !! nombre_archivo a = Some (ultima_modificacion a))
  ∧ (∀ p, p ∉ r.1 → r.2 !! p = registro !! p).
Proof.
  intros Hnd r.
  assert (Hr : r = obtener_bucle (archivos_pdf f) registro []).
  { subst r. unfold obtener_archivos_a_procesar, archivos_pdf.
    by destruct (DIR_DOCS f). }
  rewrite Hr. clear r Hr.
  assert (Hlista := obtener_bucle_filtra (archivos_pdf f) registro Hnd).
  split_and!.
  - done.
  - intros p. rewrite Hlista, list_elem_of_fmap. split.
    + intros (a & -> & Ha). apply list_elem_of_In, List.filter_In in Ha.
      destruct Ha as [Ha Hn]. exists a.
      split_and!; [by apply list_elem_of_In | done |].
      by apply es_nuevo_debe_ingerirse.
    + intros (a & Ha & <- & Hn). exists a. split; [done |].
      apply list_elem_of_In, List.filter_In.
      split; [by apply list_elem_of_In | by apply es_nuevo_debe_ingerirse].
  - intros a Ha Hn. apply obtener_bucle_actualiza; [done | done |].
    by apply es_nuevo_debe_ingerirse.
  - intros p Hp. by apply obtener_bucle_conserva.
Qed.

Lemma C5_witness :
  (obtener_archivos_a_procesar fs_dos_archivos
     {["documentos/a.pdf" := 10%Z]}).1
  = nombre_archivo <$>
      List.filter (es_nuevo {["documentos/a.pdf" := 10%Z]})
        (archivos_pdf fs_dos_archivos).
Proof.
  refine (proj1 (C5_archivos_a_procesar fs_dos_archivos _ _)).
  apply (bool_decide_unpack _). vm_compute. exact I.
Defined.

(** ** The claims about a run *)

Ltac por_caminos env f :=
  let H := fresh "Hcorrida" in
  let Hi := fresh "Hintento" in
  pose proof (main_corrida env f) as H;
  destruct (main env f) as [? ?]; cbn [fst snd] in *;
  inversion H as [ ? | ? ? ? ? ? | ? ? ? ? ? ? ? ? Hi ]; subst; clear H;
  [ | | inversion Hi; subst; clear Hi ].

Ltac abrir_trazas :=
  cbv [traza_rename traza_paso4 traza_guardado traza_embed traza_limpieza
       f_registrado f_publicado f_sin_faiss f_guardado sin_temp inicial] in *;
  cbn [fs traza] in *.

Ltac resolver_forall :=
  repeat first [apply Forall_nil_2 | apply Forall_cons_2]; cbn; auto.

(** C1 (amended): at every point of a run observed before step 4 starts the
    published directory is what it was at the start (the previous index, or
    nothing on a first run); at every point observed from then on until the
    rename has taken place it is what it was at the start, that directory
    partly removed, or absent, so that it never holds any part of the index
    being built; and when [save_local] raises, the run ends with the
    temporary directory removed and the published directory as it was. *)
Theorem C1_publicacion_por_etapas (env : Entorno) (f : FS) :
  let r := main env f in
  Forall (λ f', DIR_DB_FAISS f' = DIR_DB_FAISS f) (antes_del_paso4 (traza r.2))
  ∧ Forall (λ f', DIR_DB_FAISS f' = DIR_DB_FAISS f
                  ∨ DIR_DB_FAISS f' = medio_borrado <$> DIR_DB_FAISS f
                  ∨ DIR_DB_FAISS f' = None)
      (antes_del_rename (traza r.2))
  ∧ (r.1 = Abortado SaveLocalError →
     DIR_DB_TEMP (fs r.2) = None ∧ DIR_DB_FAISS (fs r.2) = DIR_DB_FAISS f).
Proof.
  cbv zeta. por_caminos env f; abrir_trazas;
    destruct (DIR_DB_TEMP f) as [[?|?]|],
             (DIR_DB_FAISS f) as [[?|?]|] eqn:Hpub;
    cbn; rewrite ?Hpub;
    (split_and!; [resolver_forall .. | done || by intros]).
Qed.

(** C1 as stated fails: in a completed run on a directory that already has
    a published index, the points observed before the rename show that
    index partly removed and then no index at all. *)
Lemma C1_contraejemplo :
  (main todo_ok fs_nuevo_c).1 = Completado
  ∧ DIR_DB_FAISS fs_nuevo_c = Some (Completo chunks_de_a)
  ∧ DIR_DB_FAISS <$> antes_del_rename (traza (main todo_ok fs_nuevo_c).2)
    = [Some (Completo chunks_de_a); Some (Completo chunks_de_a);
       Some (Parcial chunks_de_a); None]
  ∧ ¬ Forall (λ f', DIR_DB_FAISS f' = DIR_DB_FAISS fs_nuevo_c
                    ∨ (DIR_DB_FAISS fs_nuevo_c = None
                       ∧ DIR_DB_FAISS f' = None))
        (antes_del_rename (traza (main todo_ok fs_nuevo_c).2)).
Proof.
  split_and!; [vm_compute; reflexivity .. |].
  intros HF. apply (Forall_fmap DIR_DB_FAISS
    (λ d, d = DIR_DB_FAISS fs_nuevo_c
          ∨ (DIR_DB_FAISS fs_nuevo_c = None ∧ d = None))) in HF.
  assert (Hl : DIR_DB_FAISS <$>
                 antes_del_rename (traza (main todo_ok fs_nuevo_c).2)
               = [Some (Completo chunks_de_a); Some (Completo chunks_de_a);
                  Some (Parcial chunks_de_a); None])
    by (vm_compute; reflexivity).
  rewrite Hl in HF.
  apply Forall_cons_1 in HF as [_ HF]. apply Forall_cons_1 in HF as [_ HF].
  apply Forall_cons_1 in HF as [_ HF]. apply Forall_cons_1 in HF as [HF _].
  destruct HF as [HF | [HF _]]; discriminate HF.
Qed.

Lemma C1_witness :
  (main entorno_save_parcial fs_nuevo_c).1 = Abortado SaveLocalError
  ∧ DIR_DB_TEMP (fs (main entorno_save_parcial fs_nuevo_c).2) = None
  ∧ DIR_DB_FAISS (fs (main entorno_save_parcial fs_nuevo_c).2)
    = DIR_DB_FAISS fs_nuevo_c.
Proof.
  assert (H : (main entorno_save_parcial fs_nuevo_c).1 = Abortado SaveLocalError)
    by (vm_compute; reflexivity).
  split; [exact H |].
  exact (proj2 (proj2 (C1_publicacion_por_etapas entorno_save_parcial fs_nuevo_c)) H).
Defined.

(** *** What a run reads *)

Lemma cargar_lote_docs f f' rutas :
  DIR_DOCS f' = DIR_DOCS f → cargar_lote f' rutas = cargar_lote f rutas.
Proof.
  intros Hd. induction rutas as [|ruta rutas IH]; [done |].
  cbn [cargar_lote]. unfold PyPDFLoader_load. by rewrite Hd, IH.
Qed.

Lemma procesar_lote_documentos_docs f f' rutas :
  DIR_DOCS f' = DIR_DOCS f →
  procesar_lote_documentos f' rutas = procesar_lote_documentos f rutas.
Proof.
  intros Hd. unfold procesar_lote_documentos. by rewrite (cargar_lote_docs f f').
Qed.

(** After [obtener_archivos_a_procesar] has updated a record, a second scan
    of the same directory with that record finds nothing to process. *)
Lemma obtener_archivos_segunda_vez f f' registro0 :
  DIR_DOCS f' = DIR_DOCS f →
  obtener_archivos_a_procesar f' (obtener_archivos_a_procesar f registro0).2
  = ([], (obtener_archivos_a_procesar f registro0).2).
Proof.
  intros Hd. unfold obtener_archivos_a_procesar. rewrite Hd.
  destruct (DIR_DOCS f) as [pdfs|]; [| done].
  apply obtener_bucle_nada_nuevo. intros a Ha.
  by apply obtener_bucle_todos_al_dia.
Qed.

(** The outcome of the [try], the published directory and the record file
    it leaves do not depend on the temporary directory found at the start. *)
Lemma intento_sin_resto env f f' registro chunks s st s' st' :
  DIR_DB_FAISS f' = DIR_DB_FAISS f →
  ARCHIVO_REGISTRO f' = ARCHIVO_REGISTRO f →
  Intento env f registro chunks s st →
  Intento env f' registro chunks s' st' →
  s = s'
  ∧ DIR_DB_FAISS (fs st) = DIR_DB_FAISS (fs st')
  ∧ ARCHIVO_REGISTRO (fs st) = ARCHIVO_REGISTRO (fs st').
Proof.
  intros Hp Hr H1 H2.
  destruct H1; inversion H2; subst; clear H2;
    unfold llega_a_paso4, llega_a_embed, carga_ok, f_registrado, f_publicado,
      sin_temp, db_final_de in *;
    cbn [fs DIR_DB_FAISS ARCHIVO_REGISTRO con_temp con_faiss con_registro];
    rewrite ?Hp, ?Hr in *; destruct_and?;
    solve [ done | congruence | tauto ].
Qed.

Lemma corrida_sin_resto env f f' s st s' st' :
  DIR_DOCS f' = DIR_DOCS f →
  DIR_DB_FAISS f' = DIR_DB_FAISS f →
  ARCHIVO_REGISTRO f' = ARCHIVO_REGISTRO f →
  Corrida env f s st → Corrida env f' s' st' →
  s = s'
  ∧ DIR_DB_FAISS (fs st) = DIR_DB_FAISS (fs st')
  ∧ ARCHIVO_REGISTRO (fs st) = ARCHIVO_REGISTRO (fs st').
Proof.
  intros Hd Hp Hr H1 H2.
  assert (Hcarga : cargar_registro_archivos f' = cargar_registro_archivos f)
    by (unfold cargar_registro_archivos; by rewrite Hr).
  assert (Hobt : ∀ r, obtener_archivos_a_procesar f' r
                      = obtener_archivos_a_procesar f r)
    by (intros r; unfold obtener_archivos_a_procesar; by rewrite Hd).
  assert (Hileg : ∀ r, ARCHIVO_REGISTRO f = Some Ilegible →
                       cargar_registro_archivos f = Ret r → False).
  { intros r Hi Hc. unfold cargar_registro_archivos in Hc.
    by rewrite Hi in Hc. }
  destruct H1 as [Hi | r0 r1 Hc Ho Hex | r0 arch r1 s st Hc Ho Hcond Hint];
    inversion H2 as [Hi' | r0' r1' Hc' Ho' Hex'
                    | r0' arch' r1' s'' st'' Hc' Ho' Hcond' Hint'];
    subst; clear H2; cbn [inicial fs];
    try rewrite Hcarga in Hc'; try rewrite Hr in Hi';
    try (exfalso; eapply Hileg; eassumption).
  - by rewrite Hp, Hr.
  - by rewrite Hp, Hr.
  - rewrite Hc in Hc'. simplify_eq. rewrite Hobt, Ho in Ho'. simplify_eq.
    rewrite Hp in Hcond'. destruct Hex as [d Hd']. rewrite Hd' in Hcond'.
    by destruct Hcond'.
  - rewrite Hc in Hc'. simplify_eq. rewrite Hobt, Ho in Ho'. simplify_eq.
    rewrite Hp in Hex'. destruct Hex' as [d Hd']. rewrite Hd' in Hcond.
    by destruct Hcond.
  - rewrite Hc in Hc'. simplify_eq. rewrite Hobt, Ho in Ho'. simplify_eq.
    rewrite (procesar_lote_documentos_docs f f') in Hint' by done.
    by eapply intento_sin_resto.
Qed.

(** C6: after a run that completed (or that found nothing to do), a second
    run on the file system the first one left, whatever the collaborators
    would do, ends at once with "no changes": it makes no call to the
    embedding backend and leaves the file system, the published index in
    particular, as it found it. *)
Theorem C6_segunda_corrida_sin_cambios (env1 env2 : Entorno) (f : FS) :
  exitosa (main env1 f).1 = true →
  let f1 := fs (main env1 f).2 in
  (main env2 f1).1 = SinCambios
  ∧ llamadas_embedding (traza (main env2 f1).2) = 0
  ∧ traza (main env2 f1).2 = []
  ∧ fs (main env2 f1).2 = f1
  ∧ DIR_DB_FAISS (fs (main env2 f1).2) = DIR_DB_FAISS f1.
Proof.
  cbv zeta. por_caminos env1 f; intros Hex; try discriminate Hex.
  - unfold main. cbn [inicial fs].
    rewrite H, H0. cbn [es_vacia andb].
    by rewrite bool_decide_eq_true_2.
  - unfold main. cbn.
    replace registro with (obtener_archivos_a_procesar f registro0).2
      by (by rewrite H0).
    unfold f_registrado, f_publicado.
    by rewrite (obtener_archivos_segunda_vez f).
Qed.

Lemma C6_witness :
  exitosa (main todo_ok fs_nuevo_c).1 = true
  ∧ (main todo_ok (fs (main todo_ok fs_nuevo_c).2)).1 = SinCambios.
Proof.
  assert (H : exitosa (main todo_ok fs_nuevo_c).1 = true)
    by (vm_compute; reflexivity).
  split; [exact H |].
  exact (proj1 (C6_segunda_corrida_sin_cambios todo_ok todo_ok fs_nuevo_c H)).
Defined.

(** After a run that found files but no chunk in them, the next run again
    makes no call to the embedding backend and leaves the published
    directory and the record file alone; it does not take the "no changes"
    exit, and ends with an exception when the embedding model fails to
    load. *)
Lemma segunda_corrida_tras_sin_chunks env1 env2 f :
  (main env1 f).1 = SinChunks →
  let f1 := fs (main env1 f).2 in
  ((main env2 f1).1 = SinChunks ∨ (main env2 f1).1 = Abortado ModelLoadError)
  ∧ llamadas_embedding (traza (main env2 f1).2) = 0
  ∧ DIR_DB_FAISS (fs (main env2 f1).2) = DIR_DB_FAISS f1
  ∧ ARCHIVO_REGISTRO (fs (main env2 f1).2) = ARCHIVO_REGISTRO f1.
Proof.
  cbv zeta. por_caminos env1 f; intros Hs; try discriminate Hs.
  cbn [fs].
  pose proof (main_corrida env2 (sin_temp f)) as Hc2.
  destruct (main env2 (sin_temp f)) as [s2 st2]. cbn [fst snd] in *.
  assert (Hch : ∀ arch, procesar_lote_documentos (sin_temp f) arch
                        = procesar_lote_documentos f arch)
    by (intros; by apply procesar_lote_documentos_docs).
  inversion Hc2 as [Hi | ? ? Hc Ho [d Hex] | ? arch2 ? ? ? Hc Ho Hcond Hint];
    subst; clear Hc2.
  - unfold cargar_registro_archivos in H. cbn in Hi. by rewrite Hi in H.
  - change (cargar_registro_archivos f = Ret registro1) in Hc.
    change (obtener_archivos_a_procesar f registro1 = ([], registro2)) in Ho.
    rewrite H in Hc. simplify_eq. rewrite H0 in Ho. simplify_eq.
    cbn in Hex. rewrite Hex in H1. by destruct H1.
  - change (cargar_registro_archivos f = Ret registro1) in Hc.
    change (obtener_archivos_a_procesar f registro1 = (arch2, registro2)) in Ho.
    rewrite H in Hc. simplify_eq. rewrite H0 in Ho. simplify_eq.
    rewrite Hch, H3 in Hint.
    inversion Hint; subst; unfold llega_a_paso4, llega_a_embed in *;
      destruct_and?; try done; abrir_trazas; cbn; auto.
Qed.

(** C7: when a temporary directory is left over at the start of a run, every
    [save_local] of the run finds the temporary directory absent (the
    leftover has been removed before), and the outcome of the run, the
    published directory and the record file it leaves are those of the same
    run started without the leftover: the leftover is never read, loaded or
    moved into place. *)
Theorem C7_resto_de_corrida_anterior (env : Entorno) (f : FS) (resto : IndexDir) :
  let f0 := con_temp (Some resto) f in
  Forall (λ t, t = None) (temp_al_guardar f0 (traza (main env f0).2))
  ∧ (main env f0).1 = (main env (sin_temp f)).1
  ∧ DIR_DB_FAISS (fs (main env f0).2)
    = DIR_DB_FAISS (fs (main env (sin_temp f)).2)
  ∧ ARCHIVO_REGISTRO (fs (main env f0).2)
    = ARCHIVO_REGISTRO (fs (main env (sin_temp f)).2).
Proof.
  cbv zeta. split.
  - por_caminos env (con_temp (Some resto) f); abrir_trazas;
      cbn [DIR_DB_TEMP DIR_DB_FAISS con_temp app];
      try destruct (DIR_DB_FAISS f); cbn; resolver_forall.
  - eapply corrida_sin_resto; [| | | apply main_corrida ..]; done.
Qed.

(** *** What survives a run *)

(** Unless the record file is truncated by a save that fails while
    writing, the record that [cargar_registro_archivos] would read keeps
    every entry it had. *)
Lemma registro_conserva_claves env f registro0 p :
  guardar_res env ≠ falla_al_escribir →
  cargar_registro_archivos f = Ret registro0 →
  is_Some (registro0 !! p) →
  ∃ registro1,
    cargar_registro_archivos (fs (main env f).2) = Ret registro1
    ∧ is_Some (registro1 !! p).
Proof.
  intros Hg Hc Hp. por_caminos env f; cbn [inicial fs];
    try (exfalso; by apply Hg);
    try (unfold cargar_registro_archivos in Hc; rewrite H in Hc; done);
    try (exists registro0; split; [| done];
         abrir_trazas; exact Hc).
  rewrite Hc in H. simplify_eq. exists registro. split; [done |].
  unfold obtener_archivos_a_procesar in H0.
  destruct (DIR_DOCS f) as [pdfs|]; simplify_eq; [| done].
  pose proof (obtener_bucle_claves pdfs registro1 [] p Hp) as Hk.
  by rewrite H0 in Hk.
Qed.

(** Unless the rename of step 4 raises, the published index keeps every
    chunk it had. *)
Lemma indice_conserva_chunks env f d :
  (main env f).1 ≠ Abortado RenameError →
  d ∈ docs_de (DIR_DB_FAISS f) →
  d ∈ docs_de (DIR_DB_FAISS (fs (main env f).2)).
Proof.
  por_caminos env f; intros Hs Hd; try done;
    abrir_trazas; cbn [DIR_DB_FAISS con_temp con_faiss con_registro];
    unfold db_final_de;
    match goal with
    | H : llega_a_paso4 _ _ _ |- _ =>
        destruct H as ((_ & _ & Hcarga) & _ & _); unfold carga_ok in Hcarga
    end;
    destruct (DIR_DB_FAISS f) as [[docs | docs]|]; cbn in *;
    try done;
    first [ by apply elem_of_nil in Hd | apply elem_of_app; by left ].
Qed.

(** An exception raised before step 4 leaves the published directory and
    the record file as they were. *)
Lemma aborto_antes_del_paso4 env f e :
  (main env f).1 = Abortado e →
  e ≠ RenameError → e ≠ RegistroWriteError →
  DIR_DB_FAISS (fs (main env f).2) = DIR_DB_FAISS f
  ∧ ARCHIVO_REGISTRO (fs (main env f).2) = ARCHIVO_REGISTRO f
  ∧ DIR_DB_TEMP (fs (main env f).2) = None.
Proof.
  por_caminos env f; intros Hs Hr Hg; by simplify_eq.
Qed.

(** When the rename of step 4 raises, the published directory has already
    been removed and the [except] branch removes the new index too. *)
Lemma rename_falla_borra_indice env f :
  (main env f).1 = Abortado RenameError →
  DIR_DB_FAISS (fs (main env f).2) = None
  ∧ DIR_DB_TEMP (fs (main env f).2) = None.
Proof. por_caminos env f; intros Hs; by simplify_eq. Qed.

(** ** Runs on which the code departs from the claims *)

(** C2: evaluation at a failing input.  [a.pdf] is indexed and recorded,
    [c.pdf] is new, and [os.rename] raises.  The exception is raised during
    publishing and the run aborts, but the published directory, which held
    the index of [a.pdf] before the run, is gone after it, and so is the
    new index; only the record file is as it was. *)
Theorem C2_rename_falla_pierde_indice :
  let r := main entorno_rename_falla fs_nuevo_c in
  r.1 = Abortado RenameError
  ∧ DIR_DB_FAISS fs_nuevo_c = Some (Completo chunks_de_a)
  ∧ DIR_DB_FAISS (fs r.2) = None
  ∧ DIR_DB_TEMP (fs r.2) = None
  ∧ ARCHIVO_REGISTRO (fs r.2) = ARCHIVO_REGISTRO fs_nuevo_c.
Proof. vm_compute. by split_and!. Qed.

(** C3: evaluation at a failing input.  The directory holds [a.pdf], which
    loads, and [b.pdf], on which the PDF loader raises; there is no index
    and no record.  The run completes; the index holds the chunks of
    [a.pdf] only, yet the record file lists [b.pdf] with its modification
    time, and the next run finds nothing to do. *)
Theorem C3_archivo_omitido_queda_registrado :
  let r := main todo_ok fs_con_pdf_ilegible in
  r.1 = Completado
  ∧ PyPDFLoader_load fs_con_pdf_ilegible "documentos/b.pdf" = None
  ∧ DIR_DB_FAISS (fs r.2) = Some (Completo chunks_de_a)
  ∧ (∃ registro,
       cargar_registro_archivos (fs r.2) = Ret registro
       ∧ registro !! "documentos/b.pdf" = Some 20%Z)
  ∧ (main todo_ok (fs r.2)).1 = SinCambios.
Proof.
  cbv zeta. split_and!; try (vm_compute; reflexivity).
  eexists. split; vm_compute; reflexivity.
Qed.

(** C10: evaluation at a failing input.  [a.pdf] has been deleted from the
    documents directory; its chunks are in the published index and its
    entry is in the record.  [c.pdf] is new and [os.rename] raises.  After
    the run the record still has the entry of [a.pdf], but the published
    index holds no chunk at all. *)
Theorem C10_rename_falla_pierde_chunks :
  let r := main entorno_rename_falla fs_a_borrado in
  docs_de (DIR_DB_FAISS fs_a_borrado) = chunks_de_a
  ∧ r.1 = Abortado RenameError
  ∧ docs_de (DIR_DB_FAISS (fs r.2)) = []
  ∧ (∃ registro,
       cargar_registro_archivos (fs r.2) = Ret registro
       ∧ registro !! "documentos/a.pdf" = Some 10%Z).
Proof.
  cbv zeta. split_and!; try (vm_compute; reflexivity).
  eexists. split; vm_compute; reflexivity.
Qed.

(** ** Further properties of the change detection *)

Lemma obtener_bucle_no_retrocede pdfs : ∀ registro acc p t,
  registro !! p = Some t →
  ∃ t', (obtener_bucle pdfs registro acc).2 !! p = Some t' ∧ (t ≤ t')%Z.
Proof.
  induction pdfs as [|a pdfs IH]; intros registro acc p t Hp.
  { exists t. split; [done | lia]. }
  cbn [obtener_bucle]. destruct (es_nuevo registro a) eqn:Hn; [| by apply IH].
  destruct (decide (nombre_archivo a = p)) as [<- | Hne].
  - unfold es_nuevo in Hn. rewrite Hp in Hn. apply Z.ltb_lt in Hn.
    destruct (IH (<[nombre_archivo a := ultima_modificacion a]> registro)
                (acc ++ [nombre_archivo a]) (nombre_archivo a)
                (ultima_modificacion a)) as (t' & Ht' & Hle).
    { apply lookup_insert_eq. }
    exists t'. split; [done | lia].
  - apply IH. by rewrite lookup_insert_ne.
Qed.

Lemma es_nuevo_false registro a :
  es_nuevo registro a = false ↔
  ∃ t, registro !! nombre_archivo a = Some t ∧ (ultima_modificacion a ≤ t)%Z.
Proof.
  unfold es_nuevo. destruct (registro !! nombre_archivo a) as [t|].
  - rewrite Z.ltb_ge. split; [eauto | by intros (? & ? & ?); simplify_eq].
  - split; [done | by intros (? & ? & ?)].
Qed.

(** X1: a second scan of the same directory with the record the first scan
    left returns no file and leaves that record as it is. *)
Theorem X1_segunda_pasada_vacia (f : FS) (registro : gmap string Z) :
  let r := obtener_archivos_a_procesar f registro in
  obtener_archivos_a_procesar f r.2 = ([], r.2).
Proof. cbv zeta. by apply obtener_archivos_segunda_vez. Qed.

(** X2: the scan never deletes an entry of the record and never lowers a
    recorded time, whatever the directory holds (duplicated names
    included). *)
Theorem X2_registro_no_retrocede (f : FS) (registro : gmap string Z)
    (p : string) (t : Z) :
  registro !! p = Some t →
  ∃ t', (obtener_archivos_a_procesar f registro).2 !! p = Some t'
        ∧ (t ≤ t')%Z.
Proof.
  intros Hp. unfold obtener_archivos_a_procesar.
  destruct (DIR_DOCS f) as [pdfs|].
  - by apply obtener_bucle_no_retrocede.
  - exists t. split; [done | lia].
Qed.

Lemma X2_witness :
  ∃ t', (obtener_archivos_a_procesar fs_dos_archivos
           {["documentos/a.pdf" := 5%Z]}).2 !! "documentos/a.pdf" = Some t'
        ∧ (5 ≤ t')%Z.
Proof.
  apply (X2_registro_no_retrocede fs_dos_archivos
           {["documentos/a.pdf" := 5%Z]} "documentos/a.pdf" 5).
  vm_compute. reflexivity.
Defined.

(** X3: after the scan every scanned file has an entry whose time is not
    older than the file's modification time; the entry is written before
    the file is loaded, so also for a file that will fail to load. *)
Theorem X3_escaneados_quedan_al_dia (f : FS) (registro : gmap string Z)
    (a : PdfFile) :
  a ∈ archivos_pdf f →
  ∃ t, (obtener_archivos_a_procesar f registro).2 !! nombre_archivo a = Some t
       ∧ (ultima_modificacion a ≤ t)%Z.
Proof.
  intros Ha. apply es_nuevo_false.
  unfold obtener_archivos_a_procesar, archivos_pdf in *.
  destruct (DIR_DOCS f) as [pdfs|]; [| by apply elem_of_nil in Ha].
  by apply obtener_bucle_todos_al_dia.
Qed.

Lemma X3_witness :
  ∃ t, (obtener_archivos_a_procesar fs_con_pdf_ilegible ∅).2
         !! nombre_archivo b_pdf = Some t
       ∧ (ultima_modificacion b_pdf ≤ t)%Z.
Proof.
  apply (X3_escaneados_quedan_al_dia fs_con_pdf_ilegible ∅ b_pdf).
  apply list_elem_of_further, list_elem_of_here.
Defined.

(** ** Loading and chunking a batch *)

Lemma cargar_lote_app f l1 l2 :
  cargar_lote f (l1 ++ l2) = cargar_lote f l1 ++ cargar_lote f l2.
Proof.
  induction l1 as [|ruta l1 IH]; [done |].
  cbn [app cargar_lote]. destruct (PyPDFLoader_load f ruta); [| done].
  by rewrite IH, app_assoc.
Qed.

Lemma PyPDFLoader_load_source f ruta docs d :
  PyPDFLoader_load f ruta = Some docs → d ∈ docs → source d = ruta.
Proof.
  unfold PyPDFLoader_load. intros Hload Hd.
  destruct (DIR_DOCS f) as [pdfs|]; [| done]. cbn in Hload.
  destruct (List.find _ pdfs) as [archivo|]; [| done]. cbn in Hload.
  destruct (paginas archivo) as [pags|]; [| done]. cbn in Hload.
  simplify_eq. apply elem_of_lookup_imap_1 in Hd as (i & texto & -> & _).
  done.
Qed.

Lemma cargar_lote_elem f rutas d :
  d ∈ cargar_lote f rutas →
  source d ∈ rutas
  ∧ ∃ docs, PyPDFLoader_load f (source d) = Some docs ∧ d ∈ docs.
Proof.
  induction rutas as [|ruta rutas IH]; intros Hd.
  { by apply elem_of_nil in Hd. }
  cbn [cargar_lote] in Hd.
  destruct (PyPDFLoader_load f ruta) as [docs|] eqn:Hload.
  - apply elem_of_app in Hd as [Hd | Hd].
    + pose proof (PyPDFLoader_load_source _ _ _ _ Hload Hd) as ->.
      split; [apply list_elem_of_here | eauto].
    + destruct (IH Hd) as [? ?]. split; [by apply list_elem_of_further | done].
  - destruct (IH Hd) as [? ?]. split; [by apply list_elem_of_further | done].
Qed.

Lemma split_documents_elem cs co docs d :
  d ∈ split_documents cs co docs →
  ∃ d0, d0 ∈ docs ∧ source d = source d0 ∧ page d = page d0
        ∧ page_content d ∈ Splitter.split_text cs co (page_content d0).
Proof.
  unfold split_documents. intros Hd.
  apply list_elem_of_In, in_flat_map in Hd as (d0 & Hd0 & Hd).
  apply in_map_iff in Hd as (c & <- & Hc).
  exists d0. split_and!; [by apply list_elem_of_In | done | done |].
  by apply list_elem_of_In.
Qed.

(** X4: the chunks of a batch are the chunks of its files in the order of
    the batch: processing a concatenation of two batches gives the chunks of
    the first followed by those of the second. *)
Theorem X4_lote_concatenado (f : FS) (l1 l2 : list string) :
  procesar_lote_documentos f (l1 ++ l2)
  = procesar_lote_documentos f l1 ++ procesar_lote_documentos f l2.
Proof.
  rewrite !procesar_lote_documentos_dividir, cargar_lote_app.
  unfold dividir_texto, split_documents. apply flat_map_app.
Qed.

(** X5: every chunk of a batch is tagged with a path of the batch on which
    the PDF loader succeeded and with the number of one of its pages, and
    its text is one of the chunks of that page; a path on which the loader
    raises contributes nothing. *)
Theorem X5_origen_de_los_chunks (f : FS) (rutas : list string) (d : Document) :
  d ∈ procesar_lote_documentos f rutas →
  source d ∈ rutas
  ∧ ∃ docs d0,
      PyPDFLoader_load f (source d) = Some docs
      ∧ d0 ∈ docs ∧ page d = page d0
      ∧ page_content d ∈ Splitter.split_text 1000 200 (page_content d0).
Proof.
  rewrite procesar_lote_documentos_dividir. unfold dividir_texto. intros Hd.
  apply split_documents_elem in Hd as (d0 & Hd0 & Hs & Hp & Hc).
  apply cargar_lote_elem in Hd0 as (Hr & docs & Hload & Hd0).
  rewrite Hs. split; [done |]. by exists docs, d0.
Qed.

Lemma X5_witness :
  source {| page_content := texto "primera pagina";
            source := "documentos/a.pdf"; page := 0 |}
  ∈ ["documentos/b.pdf"; "documentos/a.pdf"].
Proof.
  refine (proj1 (X5_origen_de_los_chunks fs_con_pdf_ilegible
                   ["documentos/b.pdf"; "documentos/a.pdf"]
                   {| page_content := texto "primera pagina";
                      source := "documentos/a.pdf"; page := 0 |} _)).
  vm_compute. apply list_elem_of_here.
Defined.

(** ** Further properties of a run *)

Lemma corrida_hechos f registro0 archivos registro :
  cargar_registro_archivos f = Ret registro0 →
  obtener_archivos_a_procesar f registro0 = (archivos, registro) →
  archivos_de_corrida f = archivos
  ∧ registro_de_corrida f = registro
  ∧ chunks_de_corrida f = procesar_lote_documentos f archivos.
Proof.
  intros Hc Ho.
  unfold chunks_de_corrida, archivos_de_corrida, registro_de_corrida,
    registro_cargado.
  by rewrite Hc, Ho.
Qed.

Lemma db_final_de_docs env f chunks :
  carga_ok env f →
  db_final_de f chunks = docs_de (DIR_DB_FAISS f) ++ chunks.
Proof.
  unfold carga_ok, db_final_de.
  by destruct (DIR_DB_FAISS f) as [[docs | docs]|].
Qed.

Ltac usar_hechos :=
  match goal with
  | Hc : cargar_registro_archivos ?f = Ret _,
    Ho : obtener_archivos_a_procesar ?f _ = (_, _) |- _ =>
      destruct (corrida_hechos _ _ _ _ Hc Ho) as (? & ? & ?)
  end.

Ltac plegar_hechos :=
  match goal with
  | Hc : cargar_registro_archivos ?f = Ret _,
    Ho : obtener_archivos_a_procesar ?f _ = (_, _) |- _ =>
      destruct (corrida_hechos _ _ _ _ Hc Ho) as (<- & <- & _);
      fold (chunks_de_corrida f) in *
  end.

(** The file system that a completed run leaves. *)
Lemma main_completado env f :
  (main env f).1 = Completado →
  chunks_de_corrida f ≠ []
  ∧ fs (main env f).2
    = {| DIR_DOCS := DIR_DOCS f;
         DIR_DB_FAISS :=
           Some (Completo (docs_de (DIR_DB_FAISS f) ++ chunks_de_corrida f));
         DIR_DB_TEMP := None;
         ARCHIVO_REGISTRO := Some (Legible (registro_de_corrida f)) |}.
Proof.
  por_caminos env f; intros Hs; try discriminate Hs.
  usar_hechos.
  match goal with
  | H : llega_a_paso4 _ _ _ |- _ => destruct H as ((_ & Hne & Hcarga) & _ & _)
  end.
  split; [congruence |].
  abrir_trazas. cbv [con_registro con_temp con_faiss]. cbn.
  rewrite (db_final_de_docs env) by done. congruence.
Qed.

(** X6: a run that completes leaves the documents directory as it was, no
    temporary directory, the published index made of the chunks it held
    before, in their order, followed by the (at least one) chunks of the
    files found new or modified, and the record computed by the scan.  The
    chunks that an earlier version of a modified file left in the index
    stay there. *)
Theorem X6_resultado_de_corrida_completa (env : Entorno) (f : FS) :
  (main env f).1 = Completado →
  chunks_de_corrida f ≠ []
  ∧ fs (main env f).2
    = {| DIR_DOCS := DIR_DOCS f;
         DIR_DB_FAISS :=
           Some (Completo (docs_de (DIR_DB_FAISS f) ++ chunks_de_corrida f));
         DIR_DB_TEMP := None;
         ARCHIVO_REGISTRO := Some (Legible (registro_de_corrida f)) |}.
Proof. apply main_completado. Qed.

Lemma X6_witness :
  chunks_de_corrida fs_nuevo_c ≠ []
  ∧ fs (main todo_ok fs_nuevo_c).2
    = {| DIR_DOCS := DIR_DOCS fs_nuevo_c;
         DIR_DB_FAISS :=
           Some (Completo (docs_de (DIR_DB_FAISS fs_nuevo_c)
                           ++ chunks_de_corrida fs_nuevo_c));
         DIR_DB_TEMP := None;
         ARCHIVO_REGISTRO := Some (Legible (registro_de_corrida fs_nuevo_c)) |}.
Proof.
  apply (X6_resultado_de_corrida_completa todo_ok fs_nuevo_c).
  vm_compute. reflexivity.
Defined.

(** X7: no run changes the documents directory, and only a run that
    completes writes a record into the record file.  Every other way of
    ending leaves the record file as it was, with one exception: when the
    saving of the record fails while writing, after the publication, the
    file has been truncated and is left unreadable. *)
Theorem X7_registro_solo_al_completar (env : Entorno) (f : FS) :
  DIR_DOCS (fs (main env f).2) = DIR_DOCS f
  ∧ ((main env f).1 ≠ Completado →
     ARCHIVO_REGISTRO (fs (main env f).2) = ARCHIVO_REGISTRO f
     ∨ ((main env f).1 = Abortado RegistroWriteError
        ∧ guardar_res env = falla_al_escribir
        ∧ ARCHIVO_REGISTRO (fs (main env f).2) = Some Ilegible))
  ∧ ((main env f).1 = Abortado RegistroWriteError →
     guardar_res env = falla_al_escribir →
     ARCHIVO_REGISTRO (fs (main env f).2) = Some Ilegible).
Proof.
  por_caminos env f; split_and!; try done; try (intros; by left);
    try (intros; congruence).
  intros _. right. by split_and!.
Qed.

Lemma X7_witness :
  (main entorno_guardar_trunca fs_nuevo_c).1 = Abortado RegistroWriteError
  ∧ ARCHIVO_REGISTRO (fs (main entorno_guardar_trunca fs_nuevo_c).2)
    = Some Ilegible.
Proof.
  assert (H : (main entorno_guardar_trunca fs_nuevo_c).1
              = Abortado RegistroWriteError)
    by (vm_compute; reflexivity).
  split; [exact H |].
  exact (proj2 (proj2
    (X7_registro_solo_al_completar entorno_guardar_trunca fs_nuevo_c))
    H eq_refl).
Defined.

(** X8: a run that ends with "no changes" or dies on the record file does
    nothing at all; every other run ends with no temporary directory,
    whatever it found there and however it ends. *)
Theorem X8_sin_directorio_temporal (env : Entorno) (f : FS) :
  match (main env f).1 with
  | SinCambios | NoCapturada _ => (main env f).2 = inicial f
  | _ => DIR_DB_TEMP (fs (main env f).2) = None
  end.
Proof. por_caminos env f; done. Qed.

(** X9: a run calls the embedding backend at most once, and the chunks it
    passes to it are exactly the chunks of the files found new or modified;
    it does not call it when it ends with "no changes" or "no chunks", when
    the record file is unreadable, or when the embedding model or the
    published index fails to load. *)
Theorem X9_llamadas_al_backend (env : Entorno) (f : FS) :
  llamadas_embedding (traza (main env f).2)
  = match (main env f).1 with
    | SinCambios | SinChunks | NoCapturada _
    | Abortado ModelLoadError | Abortado IndexLoadError => 0
    | _ => 1
    end
  ∧ Forall (λ o, ∀ chunks, o.1 = ev_embed chunks →
                           chunks = chunks_de_corrida f)
      (traza (main env f).2).
Proof.
  por_caminos env f; try usar_hechos; abrir_trazas;
    destruct (DIR_DB_TEMP f), (DIR_DB_FAISS f); cbn;
    (split; [done |]);
    repeat first [apply Forall_nil_2 | apply Forall_cons_2];
    cbn; intros; simplify_eq; congruence.
Qed.

(** X10: in the trace of every run, the index is written to the temporary
    directory only after the embedding call, the published directory is
    removed and the rename is made only after the whole index has been
    written to the temporary directory, and the record file is written
    only after the rename. *)
Theorem X10_orden_de_los_pasos (env : Entorno) (f : FS) :
  let tr := traza (main env f).2 in
  solo_despues_de (λ o, es_embed o.1) (λ o, es_save_local o.1) false tr = true
  ∧ solo_despues_de es_guardado_completo (λ o, es_rmtree_faiss o.1) false tr
    = true
  ∧ solo_despues_de es_guardado_completo (λ o, es_rename o.1) false tr = true
  ∧ solo_despues_de (λ o, es_rename o.1) (λ o, es_guardar_registro o.1) false tr
    = true.
Proof.
  cbv zeta. por_caminos env f; abrir_trazas;
    destruct (DIR_DB_TEMP f), (DIR_DB_FAISS f); cbn; done.
Qed.

(** What the scan and the chunking read is the documents directory and the
    record file only. *)
Lemma chunks_de_corrida_lee f f' :
  DIR_DOCS f' = DIR_DOCS f → ARCHIVO_REGISTRO f' = ARCHIVO_REGISTRO f →
  archivos_de_corrida f' = archivos_de_corrida f
  ∧ registro_de_corrida f' = registro_de_corrida f
  ∧ chunks_de_corrida f' = chunks_de_corrida f.
Proof.
  intros Hd Hr.
  unfold chunks_de_corrida, archivos_de_corrida, registro_de_corrida,
    registro_cargado, cargar_registro_archivos, obtener_archivos_a_procesar.
  rewrite Hd, Hr. split_and!; [done | done |].
  by apply procesar_lote_documentos_docs.
Qed.

(** X11: when the saving of the record fails after the publication, the
    run ends as aborted although the published index already holds the new
    chunks.  If the failure is in opening the file, the record file is as
    before: the next run does not take the "no changes" exit, and if it
    completes the same chunks are in the published index twice.  If the
    failure is in writing, the record file is left unreadable and every
    later run ends at once with the exception of the load of the record. *)
Theorem X11_registro_no_guardado_duplica (env1 env2 : Entorno) (f : FS) :
  (main env1 f).1 = Abortado RegistroWriteError →
  let f1 := fs (main env1 f).2 in
  DIR_DB_FAISS f1
  = Some (Completo (docs_de (DIR_DB_FAISS f) ++ chunks_de_corrida f))
  ∧ (guardar_res env1 = falla_al_abrir ∨ guardar_res env1 = falla_al_escribir)
  ∧ (guardar_res env1 = falla_al_abrir →
     ARCHIVO_REGISTRO f1 = ARCHIVO_REGISTRO f
     ∧ (main env2 f1).1 ≠ SinCambios
     ∧ ((main env2 f1).1 = Completado →
        DIR_DB_FAISS (fs (main env2 f1).2)
        = Some (Completo (docs_de (DIR_DB_FAISS f)
                          ++ chunks_de_corrida f ++ chunks_de_corrida f))))
  ∧ (guardar_res env1 = falla_al_escribir →
     ARCHIVO_REGISTRO f1 = Some Ilegible
     ∧ main env2 f1 = (NoCapturada JSONDecodeError, inicial f1)).
Proof.
  cbv zeta. por_caminos env1 f; intros Hs; try discriminate Hs;
    plegar_hechos;
    match goal with
    | H : llega_a_paso4 _ _ _ |- _ => destruct H as ((_ & Hne & Hcarga) & _ & _)
    end;
    cbn [fs].
  - set (f1 := f_publicado f (chunks_de_corrida f)).
    assert (Hpub : DIR_DB_FAISS f1
                   = Some (Completo (docs_de (DIR_DB_FAISS f)
                                     ++ chunks_de_corrida f))).
    { subst f1. unfold f_publicado. cbn.
      by rewrite (db_final_de_docs env1). }
    destruct (chunks_de_corrida_lee f f1) as (Harch & _ & Hchunks); [done.. |].
    assert (Hreg : ARCHIVO_REGISTRO f1 = ARCHIVO_REGISTRO f) by done.
    clearbody f1.
    split_and!; [done | by left | | intros; congruence].
    intros _. split_and!; [done | |].
    + pose proof (main_corrida env2 f1) as Hc2. intros Hsc.
      destruct (main env2 f1) as [s2 st2]. cbn [fst snd] in *. subst s2.
      inversion Hc2 as [ | r0 r1 Hc Ho _ | ? ? ? ? ? ? ? ? Hint ]; subst.
      * destruct (corrida_hechos _ _ _ _ Hc Ho) as (Ha & _ & _).
        apply Hne. unfold chunks_de_corrida. by rewrite <- Harch, Ha.
      * inversion Hint.
    + intros Hs2. destruct (main_completado env2 f1 Hs2) as [_ ->].
      cbn [DIR_DB_FAISS]. rewrite Hpub, Hchunks. cbn [docs_de].
      by rewrite <- app_assoc.
  - split_and!; [| by right | intros; congruence |].
    + unfold f_publicado. cbn. by rewrite (db_final_de_docs env1).
    + intros _. split; [done |]. unfold main. by cbn.
Qed.

Lemma X11_witness :
  (main todo_ok (fs (main entorno_guardar_falla fs_nuevo_c).2)).1 ≠ SinCambios
  ∧ main todo_ok (fs (main entorno_guardar_trunca fs_nuevo_c).2)
    = (NoCapturada JSONDecodeError,
       inicial (fs (main entorno_guardar_trunca fs_nuevo_c).2)).
Proof.
  split.
  - refine (proj1 (proj2 (proj1 (proj2 (proj2
      (X11_registro_no_guardado_duplica entorno_guardar_falla todo_ok
         fs_nuevo_c _))) eq_refl))).
    vm_compute. reflexivity.
  - refine (proj2 (proj2 (proj2 (proj2
      (X11_registro_no_guardado_duplica entorno_guardar_trunca todo_ok
         fs_nuevo_c _))) eq_refl)).
    vm_compute. reflexivity.
Defined.

(** ** The full rebuild *)

(** The pages of a directory entry, none when the loader raises on it. *)
Lemma cargar_documentos_casos pdfs :
  match ProcesarDocs.cargar_documentos pdfs with
  | inr docs =>
      Forall (λ a, is_Some (paginas a)) pdfs
      ∧ docs = flat_map (λ a, default [] (ProcesarDocs.cargar_pdf a)) pdfs
  | inl ruta =>
      ∃ pre a post,
        pdfs = pre ++ a :: post
        ∧ Forall (λ a, is_Some (paginas a)) pre
        ∧ paginas a = None ∧ ruta = nombre_archivo a
  end.
Proof.
  induction pdfs as [|a pdfs IH]; [by split |].
  cbn [ProcesarDocs.cargar_documentos flat_map].
  destruct (ProcesarDocs.cargar_pdf a) as [pags_a|] eqn:Ha.
  - assert (Hp : is_Some (paginas a)).
    { unfold ProcesarDocs.cargar_pdf in Ha.
      destruct (paginas a); [eauto | done]. }
    destruct (ProcesarDocs.cargar_documentos pdfs) as [ruta | docs].
    + destruct IH as (pre & b & post & -> & Hpre & Hb & ->).
      exists (a :: pre), b, post. split_and!; [done | | done | done].
      by apply Forall_cons_2.
    + destruct IH as [Hall ->]. split; [| done]. by apply Forall_cons_2.
  - exists [], a, pdfs. split_and!; [done | done | | done].
    unfold ProcesarDocs.cargar_pdf in Ha. by destruct (paginas a).
Qed.

(** X12: [cargar_documentos] is all or nothing: it returns the pages of
    all the files, in listing order, when the loader succeeds on every one
    of them, and otherwise it ends with the exception of the first file on
    which the loader raises, the pages loaded before being lost. *)
Theorem X12_cargar_documentos_todo_o_nada (pdfs : list PdfFile) :
  match ProcesarDocs.cargar_documentos pdfs with
  | inr docs =>
      Forall (λ a, is_Some (paginas a)) pdfs
      ∧ docs = flat_map (λ a, default [] (ProcesarDocs.cargar_pdf a)) pdfs
  | inl ruta =>
      ∃ pre a post,
        pdfs = pre ++ a :: post
        ∧ Forall (λ a, is_Some (paginas a)) pre
        ∧ paginas a = None ∧ ruta = nombre_archivo a
  end.
Proof. apply cargar_documentos_casos. Qed.

Lemma find_nombre_NoDup (pdfs : list PdfFile) a :
  NoDup (nombre_archivo <$> pdfs) → a ∈ pdfs →
  List.find (λ b, bool_decide (nombre_archivo b = nombre_archivo a)) pdfs
  = Some a.
Proof.
  induction pdfs as [|b pdfs IH]; intros Hnd Ha.
  { by apply elem_of_nil in Ha. }
  rewrite fmap_cons, NoDup_cons in Hnd. destruct Hnd as [Hb Hnd].
  cbn [List.find]. apply elem_of_cons in Ha as [-> | Ha].
  - by rewrite bool_decide_eq_true_2.
  - rewrite bool_decide_eq_false_2; [by apply IH |].
    intros Heq. apply Hb. rewrite Heq. apply list_elem_of_fmap. eauto.
Qed.

Lemma PyPDFLoader_load_cargar_pdf f pdfs a :
  DIR_DOCS f = Some pdfs → NoDup (nombre_archivo <$> pdfs) → a ∈ pdfs →
  PyPDFLoader_load f (nombre_archivo a) = ProcesarDocs.cargar_pdf a.
Proof.
  intros Hd Hnd Ha. unfold PyPDFLoader_load, ProcesarDocs.cargar_pdf.
  rewrite Hd. cbn. by rewrite find_nombre_NoDup.
Qed.

Lemma cargar_lote_listado f pdfs :
  DIR_DOCS f = Some pdfs → NoDup (nombre_archivo <$> pdfs) →
  ∀ l, l ⊆ pdfs →
  cargar_lote f (nombre_archivo <$> l)
  = flat_map (λ a, default [] (ProcesarDocs.cargar_pdf a)) l.
Proof.
  intros Hd Hnd l. induction l as [|a l IH]; intros Hsub; [done |].
  cbn [fmap list_fmap cargar_lote flat_map].
  rewrite (PyPDFLoader_load_cargar_pdf f pdfs) by (done || set_solver).
  rewrite IH by set_solver.
  by destruct (ProcesarDocs.cargar_pdf a).
Qed.

(** X13: on the full listing of a directory with pairwise distinct names,
    the loading loop of the incremental script gives the pages of the files
    on which the loader succeeds, in listing order, the others being
    skipped; when the loader succeeds on every file this is what
    [cargar_documentos] of the first script returns. *)
Theorem X13_carga_incremental_del_listado (f : FS) :
  NoDup (nombre_archivo <$> archivos_pdf f) →
  cargar_lote f (nombre_archivo <$> archivos_pdf f)
  = flat_map (λ a, default [] (ProcesarDocs.cargar_pdf a)) (archivos_pdf f)
  ∧ ∀ docs, ProcesarDocs.cargar_documentos (archivos_pdf f) = inr docs →
            cargar_lote f (nombre_archivo <$> archivos_pdf f) = docs.
Proof.
  intros Hnd.
  assert (H : cargar_lote f (nombre_archivo <$> archivos_pdf f)
              = flat_map (λ a, default [] (ProcesarDocs.cargar_pdf a))
                  (archivos_pdf f)).
  { unfold archivos_pdf in *. destruct (DIR_DOCS f) as [pdfs|] eqn:Hd; [| done].
    by apply (cargar_lote_listado f pdfs). }
  split; [done |]. intros docs Hdocs.
  pose proof (cargar_documentos_casos (archivos_pdf f)) as Hc.
  rewrite Hdocs in Hc. destruct Hc as [_ ->]. done.
Qed.

Lemma X13_witness :
  cargar_lote fs_con_pdf_ilegible
    (nombre_archivo <$> archivos_pdf fs_con_pdf_ilegible)
  = flat_map (λ a, default [] (ProcesarDocs.cargar_pdf a))
      (archivos_pdf fs_con_pdf_ilegible).
Proof.
  refine (proj1 (X13_carga_incremental_del_listado fs_con_pdf_ilegible _)).
  apply (bool_decide_unpack _). vm_compute. exact I.
Defined.

Lemma main_docs_casos env f :
  let r := ProcesarDocs.main env f in
  DIR_DOCS (fs r.2) = DIR_DOCS f
  ∧ DIR_DB_TEMP (fs r.2) = DIR_DB_TEMP f
  ∧ ARCHIVO_REGISTRO (fs r.2) = ARCHIVO_REGISTRO f
  ∧ match r.1 with
    | ProcesarDocs.Completado =>
        ∃ docs,
          ProcesarDocs.cargar_documentos (archivos_pdf f) = inr docs
          ∧ docs ≠ []
          ∧ dividir_texto docs ≠ []
          ∧ embeddings_ok env = true ∧ embed_ok env = true
          ∧ save_local_res env = guarda_todo
          ∧ DIR_DB_FAISS (fs r.2) = Some (Completo (dividir_texto docs))
    | ProcesarDocs.Falla SaveLocalError =>
        fs r.2 = f
        ∨ ∃ k docs,
            ProcesarDocs.cargar_documentos (archivos_pdf f) = inr docs
            ∧ save_local_res env = falla_parcial k
            ∧ DIR_DB_FAISS (fs r.2)
              = Some (Parcial (take k (dividir_texto docs)))
    | ProcesarDocs.Falla IndexError =>
        fs r.2 = f
        ∧ ∃ docs,
            ProcesarDocs.cargar_documentos (archivos_pdf f) = inr docs
            ∧ docs ≠ [] ∧ dividir_texto docs = []
    | _ => fs r.2 = f
    end.
Proof.
  cbv zeta. unfold ProcesarDocs.main, archivos_pdf.
  destruct f as [[[|a pdfs]|] pub tmp reg]; cbn [DIR_DOCS]; try done.
  destruct (ProcesarDocs.cargar_documentos (a :: pdfs)) as [ruta | docs] eqn:Hc;
    [done |].
  destruct (es_vacia docs) eqn:Hv; [done |].
  assert (Hne : docs ≠ []) by (by destruct docs).
  cbv [ProcesarDocs.crear_base_vectorial ProcesarDocs.save_local_publicado
       HuggingFaceEmbeddings from_documents add_documents bind observar
       inicial].
  cbn [fs traza].
  destruct env as [e1 e2 e3 e4 e5 e6]. cbn.
  destruct (dividir_texto docs) as [|c chunks] eqn:Hdiv;
    destruct e1, e3; destruct e4 as [| |k]; cbn;
    do 3 (split; [done |]); try done; try (by left);
    try (split; [done |]; by exists docs).
  - exists docs. by rewrite Hdiv.
  - right. exists k, docs. by rewrite Hdiv.
Qed.

(** X14: the first script never touches the documents directory, the
    temporary directory or the record file.  When it completes, the pages
    of all the PDFs split into at least one chunk and the published
    directory holds exactly those chunks, whatever it held before; when it
    ends in any other way the file system is as it was, except that a
    [save_local] that raises may leave a partially written index in the
    published directory itself.  In particular, when the pages split into
    no chunk at all and the embedding backend works, the construction of
    the index raises [IndexError] and nothing is written. *)
Theorem X14_reconstruccion_completa (env : Entorno) (f : FS) :
  let r := ProcesarDocs.main env f in
  DIR_DOCS (fs r.2) = DIR_DOCS f
  ∧ DIR_DB_TEMP (fs r.2) = DIR_DB_TEMP f
  ∧ ARCHIVO_REGISTRO (fs r.2) = ARCHIVO_REGISTRO f
  ∧ match r.1 with
    | ProcesarDocs.Completado =>
        ∃ docs,
          ProcesarDocs.cargar_documentos (archivos_pdf f) = inr docs
          ∧ dividir_texto docs ≠ []
          ∧ DIR_DB_FAISS (fs r.2) = Some (Completo (dividir_texto docs))
    | ProcesarDocs.Falla SaveLocalError =>
        fs r.2 = f
        ∨ ∃ k docs,
            ProcesarDocs.cargar_documentos (archivos_pdf f) = inr docs
            ∧ save_local_res env = falla_parcial k
            ∧ DIR_DB_FAISS (fs r.2)
              = Some (Parcial (take k (dividir_texto docs)))
    | _ => fs r.2 = f
    end
  ∧ ∀ docs,
      ProcesarDocs.cargar_documentos (archivos_pdf f) = inr docs →
      docs ≠ [] → dividir_texto docs = [] →
      embeddings_ok env = true → embed_ok env = true →
      r.1 = ProcesarDocs.Falla IndexError ∧ fs r.2 = f.
Proof.
  cbv zeta. pose proof (main_docs_casos env f) as H. cbv zeta in H.
  destruct H as (H1 & H2 & H3 & H4). split_and!; [done.. | |].
  - destruct (ProcesarDocs.main env f).1 as [ | | | |e]; try done.
    + destruct H4 as (docs & ? & _ & ? & _ & _ & _ & ?). by exists docs.
    + destruct e; try done. by destruct H4.
  - clear H1 H2 H3 H4. intros docs Hdocs Hne Hdiv Hemb Hembed.
    unfold ProcesarDocs.main, archivos_pdf in *.
    destruct f as [[[|a pdfs]|] pub tmp reg]; cbn [DIR_DOCS default] in *;
      [cbn in Hdocs; by simplify_eq | | cbn in Hdocs; by simplify_eq].
    rewrite Hdocs. destruct docs as [|d docs]; [done |]. cbn [es_vacia].
    cbv [ProcesarDocs.crear_base_vectorial ProcesarDocs.save_local_publicado
         HuggingFaceEmbeddings from_documents bind observar inicial].
    cbn [fs traza]. by rewrite Hdiv, Hemb, Hembed.
Qed.

Lemma X14_witness :
  (ProcesarDocs.main todo_ok fs_pagina_vacia).1
  = ProcesarDocs.Falla IndexError
  ∧ fs (ProcesarDocs.main todo_ok fs_pagina_vacia).2 = fs_pagina_vacia.
Proof.
  refine (proj2 (proj2 (proj2 (proj2
    (X14_reconstruccion_completa todo_ok fs_pagina_vacia))))
    [ {| page_content := []; source := "documentos/vacio.pdf";
         page := 0 |} ] _ _ _ _ _);
    try reflexivity.
  discriminate.
Defined.

(** X15: when the PDF loader raises on some file of the directory, the
    first script ends with the exception of a file on which the loader
    raises, without calling the embedding backend and without touching the
    file system: one unreadable PDF prevents the whole rebuild. *)
Theorem X15_un_pdf_ilegible_impide_reconstruir (env : Entorno) (f : FS)
    (a : PdfFile) :
  a ∈ archivos_pdf f → paginas a = None →
  ∃ b, b ∈ archivos_pdf f ∧ paginas b = None
       ∧ ProcesarDocs.main env f
         = (ProcesarDocs.FallaPdf (nombre_archivo b), inicial f).
Proof.
  intros Ha Hp.
  pose proof (cargar_documentos_casos (archivos_pdf f)) as Hc.
  unfold ProcesarDocs.main. unfold archivos_pdf in *.
  destruct (DIR_DOCS f) as [[|a0 pdfs]|]; try by apply elem_of_nil in Ha.
  destruct (ProcesarDocs.cargar_documentos (a0 :: pdfs)) as [ruta | docs].
  - destruct Hc as (pre & b & post & Heq & _ & Hb & ->).
    exists b. split_and!; [| done | done].
    rewrite Heq. apply elem_of_app. right. apply list_elem_of_here.
  - destruct Hc as [Hall _]. rewrite Forall_forall in Hall.
    apply Hall in Ha. rewrite Hp in Ha. by destruct Ha.
Qed.

Lemma X15_witness :
  ∃ b, b ∈ archivos_pdf fs_con_pdf_ilegible ∧ paginas b = None
       ∧ ProcesarDocs.main todo_ok fs_con_pdf_ilegible
         = (ProcesarDocs.FallaPdf (nombre_archivo b),
            inicial fs_con_pdf_ilegible).
Proof.
  apply (X15_un_pdf_ilegible_impide_reconstruir todo_ok fs_con_pdf_ilegible
           b_pdf).
  - apply list_elem_of_further, list_elem_of_here.
  - reflexivity.
Defined.

(** With an empty record every scanned file is new. *)
Lemma obtener_todo_nuevo f :
  ARCHIVO_REGISTRO f = None →
  NoDup (nombre_archivo <$> archivos_pdf f) →
  archivos_de_corrida f = nombre_archivo <$> archivos_pdf f.
Proof.
  intros Hr Hnd.
  unfold archivos_de_corrida, registro_cargado, cargar_registro_archivos.
  rewrite Hr. unfold obtener_archivos_a_procesar, archivos_pdf in *.
  destruct (DIR_DOCS f) as [pdfs|]; [| done].
  rewrite obtener_bucle_filtra by done. f_equal.
  clear Hnd. induction pdfs as [|a pdfs IH]; [done |].
  cbn [List.filter]. unfold es_nuevo at 1. rewrite lookup_empty.
  by rewrite IH.
Qed.

(** X16: on a directory with pairwise distinct names, with no published
    index and no record file, whenever the first script completes with a
    non-empty index and the rename and the saving of the record succeed,
    the incremental script completes too and publishes the same index: the
    first incremental run is a full rebuild. *)
Theorem X16_primera_corrida_es_reconstruccion (env : Entorno) (f : FS) :
  DIR_DB_FAISS f = None → ARCHIVO_REGISTRO f = None →
  NoDup (nombre_archivo <$> archivos_pdf f) →
  (ProcesarDocs.main env f).1 = ProcesarDocs.Completado →
  docs_de (DIR_DB_FAISS (fs (ProcesarDocs.main env f).2)) ≠ [] →
  rename_ok env = true → guardar_ok env = true →
  (main env f).1 = Completado
  ∧ DIR_DB_FAISS (fs (main env f).2)
    = DIR_DB_FAISS (fs (ProcesarDocs.main env f).2).
Proof.
  intros Hpub Hreg Hnd Hs1 Hne Hren Hgua.
  pose proof (main_docs_casos env f) as H1. cbv zeta in H1.
  rewrite Hs1 in H1.
  destruct H1
    as (_ & _ & _ & docs & Hdocs & _ & _ & Hemb & Hembed & Hsave & Hpub1).
  rewrite Hpub1 in *. cbn [docs_de] in Hne.
  assert (Hchunks : chunks_de_corrida f = dividir_texto docs).
  { unfold chunks_de_corrida.
    rewrite obtener_todo_nuevo, procesar_lote_documentos_dividir by done.
    f_equal.
    pose proof (cargar_documentos_casos (archivos_pdf f)) as Hc.
    rewrite Hdocs in Hc. destruct Hc as [_ ->].
    unfold archivos_pdf in *. destruct (DIR_DOCS f) as [pdfs|] eqn:Hd; [| done].
    by apply (cargar_lote_listado f pdfs). }
  assert (Hg : guardar_res env = registro_escrito).
  { unfold guardar_ok in Hgua. by destruct (guardar_res env). }
  assert (Hs : (main env f).1 = Completado).
  { clear Hpub1. por_caminos env f; try plegar_hechos;
      unfold llega_a_paso4, llega_a_embed, carga_ok in *;
      rewrite ?Hpub in *; destruct_and?;
      solve [ done | congruence | by destruct H1
            | match goal with H : is_Some None |- _ => by destruct H end
            | match goal with H : ¬ True |- _ => by destruct H end ]. }
  split; [done |].
  destruct (main_completado env f Hs) as [_ ->]. cbn [DIR_DB_FAISS].
  by rewrite Hpub, Hchunks.
Qed.

Lemma X16_witness :
  (main todo_ok fs_dos_archivos).1 = Completado
  ∧ DIR_DB_FAISS (fs (main todo_ok fs_dos_archivos).2)
    = DIR_DB_FAISS (fs (ProcesarDocs.main todo_ok fs_dos_archivos).2).
Proof.
  apply (X16_primera_corrida_es_reconstruccion todo_ok fs_dos_archivos);
    try reflexivity.
  - apply (bool_decide_unpack _). vm_compute. exact I.
  - vm_compute. discriminate.
Defined.

(** ** The readers of the published index *)



Lemma join_cons_cons sep (t t' : list ascii) l :
  App.join sep (t :: t' :: l) = t ++ sep ++ App.join sep (t' :: l).
Proof. done. Qed.

Lemma join_app sep (l1 l2 : list (list ascii)) :
  l1 ≠ [] → l2 ≠ [] →
  App.join sep (l1 ++ l2) = App.join sep l1 ++ sep ++ App.join sep l2.
Proof.
  intros H1 H2. induction l1 as [|t l1 IH]; [done |].
  destruct l1 as [|t' l1].
  - destruct l2 as [|t2 l2]; [done |]. apply join_cons_cons.
  - change ((t :: t' :: l1) ++ l2) with (t :: t' :: (l1 ++ l2)).
    rewrite !join_cons_cons.
    change (t' :: l1 ++ l2) with ((t' :: l1) ++ l2).
    rewrite IH by done. by rewrite <- !app_assoc.
Qed.

Lemma length_join sep (l : list (list ascii)) :
  length (App.join sep l)
  = sum_list (length <$> l) + length sep * (length l - 1).
Proof.
  induction l as [|t l IH]; [cbn; lia |].
  destruct l as [|t' l].
  - cbn. lia.
  - rewrite join_cons_cons, !length_app, IH. cbn [fmap list_fmap sum_list
      sum_list_with length]. rewrite !Nat.sub_succ, !Nat.sub_0_r.
    unfold id. rewrite Nat.mul_succ_r. lia.
Qed.

(** X18: [format_docs] joins the page texts with a blank line and nothing
    else: its length is the sum of the lengths of the texts plus two per
    gap, and the text formatted for two non-empty groups of documents is
    the text of the first, a blank line, and the text of the second. *)
Theorem X18_format_docs (docs1 docs2 : list Document) :
  length (App.format_docs docs1)
  = sum_list ((λ d, length (page_content d)) <$> docs1)
    + 2 * (length docs1 - 1)
  ∧ (docs1 ≠ [] → docs2 ≠ [] →
     App.format_docs (docs1 ++ docs2)
     = App.format_docs docs1 ++ App.doble_salto ++ App.format_docs docs2).
Proof.
  unfold App.format_docs. split.
  - rewrite length_join, length_fmap, <- list_fmap_compose. done.
  - intros H1 H2. rewrite fmap_app. apply join_app; by destruct docs1, docs2.
Qed.

Lemma X18_witness :
  App.format_docs (chunks_de_a ++ chunks_de_a)
  = App.format_docs chunks_de_a ++ App.doble_salto
    ++ App.format_docs chunks_de_a.
Proof.
  apply (proj2 (X18_format_docs chunks_de_a chunks_de_a)); discriminate.
Defined.

(** ** [utils.py] *)

(** X19: in the result of [verificar_configuracion], when the three flags
    are true the list of errors is empty; the database message is listed
    exactly when the database flag is false, and the Ollama and API-key
    messages only when the corresponding flag is false.  The converse
    fails: a response with a status other than 200 leaves the Ollama flag
    false and adds no error. *)
Theorem X19_banderas_y_errores (e : Utils.EntornoConfig) :
  let c := Utils.verificar_configuracion e in
  (Utils.base_datos_existe c = true → Utils.ollama_disponible c = true →
   Utils.api_keys_configuradas c = true → Utils.errores c = [])
  ∧ (Utils.msg_base_datos ∈ Utils.errores c
     ↔ Utils.base_datos_existe c = false)
  ∧ (Utils.msg_ollama ∈ Utils.errores c → Utils.ollama_disponible c = false)
  ∧ (Utils.msg_api_keys ∈ Utils.errores c
     ∨ Utils.msg_no_verificar ∈ Utils.errores c →
     Utils.api_keys_configuradas c = false)
  ∧ (∀ codigo, Utils.respuesta_tags e = Utils.http_status codigo →
     codigo ≠ 200 →
     Utils.ollama_disponible c = false
     ∧ Utils.msg_ollama ∉ Utils.errores c).
Proof.
  cbv zeta. unfold Utils.verificar_configuracion.
  destruct e as [db idx resp sec]. cbn [Utils.ruta_db_existe
    Utils.index_faiss_existe Utils.respuesta_tags Utils.secrets].
  destruct (db && idx), resp as [codigo|], sec as [| |claves];
    try destruct (bool_decide (_ ∈ claves ∨ _ ∈ claves));
    try destruct (bool_decide (codigo = 200)) eqn:Hcod;
    cbn; rewrite ?elem_of_cons, ?elem_of_nil;
    unfold Utils.msg_base_datos, Utils.msg_ollama, Utils.msg_api_keys,
      Utils.msg_no_verificar;
    (split_and!;
     [ intros; congruence
     | split; [intros; intuition congruence | intros; by auto]
     | intuition congruence
     | intuition congruence
     | intros c Hc Hne;
       first
         [ discriminate Hc
         | injection Hc as <-;
           try (apply bool_decide_eq_true in Hcod; contradiction);
           rewrite ?elem_of_cons, ?elem_of_nil; intuition congruence ]
     | .. ]);
    try discriminate.
Qed.

Lemma X19_witness :
  Utils.errores (Utils.verificar_configuracion config_todo_ok) = [].
Proof.
  apply (proj1 (X19_banderas_y_errores config_todo_ok)); vm_compute; reflexivity.
Defined.

Section ValidarFacts.
Variable lower : list N → list N.
Variable isspace : N → bool.

Lemma length_lstrip s : length (Utils.lstrip isspace s) ≤ length s.
Proof.
  induction s as [|c s IH]; [done |]. cbn [Utils.lstrip].
  destruct (isspace c); cbn [length]; lia.
Qed.

Lemma length_strip s : length (Utils.strip isspace s) ≤ length s.
Proof.
  unfold Utils.strip. rewrite length_reverse.
  etrans; [apply length_lstrip |]. rewrite length_reverse.
  apply length_lstrip.
Qed.

Lemma lstrip_espacios s :
  Forall (λ c, isspace c = true) s → Utils.lstrip isspace s = [].
Proof.
  induction 1 as [|c s Hc _ IH]; [done |]. cbn [Utils.lstrip]. by rewrite Hc.
Qed.
End ValidarFacts.

(** X20: whatever [str.lower] and the whitespace test are, a question that
    [validar_pregunta] accepts has between 3 and 500 characters, at least 3
    of them once stripped, contains one of the key words after lowering,
    and comes with the message "Pregunta válida"; a question longer than
    500 characters is never accepted; and a question made of whitespace
    only is rejected as too short, whatever its length. *)
Theorem X20_validar_pregunta (lower : list N → list N) (isspace : N → bool)
    (pregunta : list N) :
  (∀ m, Utils.validar_pregunta lower isspace pregunta = (true, m) →
     m = Utils.msg_valida
     ∧ 3 ≤ length (Utils.strip isspace pregunta)
     ∧ 3 ≤ length pregunta ≤ 500
     ∧ ∃ palabra, palabra ∈ Utils.palabras_clave
                  ∧ Utils.contiene palabra (lower pregunta) = true)
  ∧ (500 < length pregunta →
     (Utils.validar_pregunta lower isspace pregunta).1 = false)
  ∧ (Forall (λ c, isspace c = true) pregunta →
     Utils.validar_pregunta lower isspace pregunta = (false, Utils.msg_corta)).
Proof.
  unfold Utils.validar_pregunta.
  pose proof (length_strip isspace pregunta) as Hstrip.
  split_and!.
  - intros m.
    destruct (es_vacia pregunta || (length (Utils.strip isspace pregunta) <? 3))
      eqn:Hcorta; [done |].
    apply orb_false_iff in Hcorta as [_ Hlen]. apply Nat.ltb_ge in Hlen.
    destruct (500 <? length pregunta) eqn:Hlarga; [done |].
    apply Nat.ltb_ge in Hlarga.
    destruct (existsb _ Utils.palabras_clave) eqn:Hclave; [| done].
    intros [= <-]. apply existsb_exists in Hclave as (palabra & Hin & Hc).
    split_and!; [done | done | lia | done |].
    exists palabra. split; [by apply list_elem_of_In | done].
  - intros Hlen.
    destruct (es_vacia pregunta || (length (Utils.strip isspace pregunta) <? 3));
      [done |].
    destruct (Nat.ltb_spec 500 (length pregunta)); [done | lia].
  - intros Hesp. unfold Utils.strip.
    rewrite (lstrip_espacios isspace pregunta Hesp). cbn.
    by rewrite orb_true_r.
Qed.

Lemma X20_witness :
  Utils.msg_valida = Utils.msg_valida
  ∧ 3 ≤ length (Utils.strip isspace_ascii pregunta_ejemplo)
  ∧ 3 ≤ length pregunta_ejemplo ≤ 500
  ∧ ∃ palabra, palabra ∈ Utils.palabras_clave
               ∧ Utils.contiene palabra (lower_trivial pregunta_ejemplo) = true.
Proof.
  apply (proj1 (X20_validar_pregunta lower_trivial isspace_ascii
                  pregunta_ejemplo)).
  vm_compute. reflexivity.
Defined.

(** X21: after a run that completes, [cargar_registro_archivos] reads back
    exactly the record that the run saved, and that record lists every
    file of the documents directory with a time not older than the file's
    modification time, whether or not the file could be loaded. *)
Theorem X21_registro_guardado_y_releido (env : Entorno) (f : FS) :
  (main env f).1 = Completado →
  cargar_registro_archivos (fs (main env f).2) = Ret (registro_de_corrida f)
  ∧ ∀ a, a ∈ archivos_pdf f →
      ∃ t, registro_de_corrida f !! nombre_archivo a = Some t
           ∧ (ultima_modificacion a ≤ t)%Z.
Proof.
  intros Hs. destruct (main_completado env f Hs) as [_ ->]. split; [done |].
  intros a Ha. apply es_nuevo_false.
  unfold registro_de_corrida, obtener_archivos_a_procesar, archivos_pdf in *.
  destruct (DIR_DOCS f) as [pdfs|]; [| by apply elem_of_nil in Ha].
  by apply obtener_bucle_todos_al_dia.
Qed.

Lemma X21_witness :
  cargar_registro_archivos (fs (main todo_ok fs_con_pdf_ilegible).2)
  = Ret (registro_de_corrida fs_con_pdf_ilegible).
Proof.
  refine (proj1 (X21_registro_guardado_y_releido todo_ok fs_con_pdf_ilegible _)).
  vm_compute. reflexivity.
Defined.
